(** * cli-clock: a shallow embedding of [cli_clock.py]

    The terminal clock is modelled function by function.  Python [str]
    values are lists of Unicode code points (so that [len] is [length]),
    integers are [Z], the two glyph dictionaries are finite maps, and the
    effects of a mode (text printed, cursor moves, sleeps, the bell) are
    collected in a trace of events. *)

From Stdlib Require Import ZArith NArith QArith Qround List String Ascii Lia Bool.
From Stdlib Require Import DecimalPos DecimalN Lqa.
From stdpp Require Import base option list gmap.
Import ListNotations.

Local Open Scope Z_scope.

(** ** Python strings *)

Module PyStr.

(** A [str] is the list of its code points. *)
Abbreviation pystr := (list N).

(** Source literals are written as UTF-8 text and decoded to code points. *)
Fixpoint utf8_decode (bs : list N) : pystr :=
  match bs with
  | [] => []
  | b0 :: t0 =>
    if (b0 <? 128)%N then b0 :: utf8_decode t0 else
    match t0 with
    | [] => []
    | b1 :: t1 =>
      if (b0 <? 224)%N
      then ((b0 - 192) * 64 + (b1 - 128))%N :: utf8_decode t1 else
      match t1 with
      | [] => []
      | b2 :: t2 =>
        if (b0 <? 240)%N
        then ((b0 - 224) * 4096 + (b1 - 128) * 64 + (b2 - 128))%N
               :: utf8_decode t2 else
        match t2 with
        | [] => []
        | b3 :: t3 =>
          ((b0 - 240) * 262144 + (b1 - 128) * 4096
           + (b2 - 128) * 64 + (b3 - 128))%N :: utf8_decode t3
        end
      end
    end
  end.

Definition u (s : string) : pystr :=
  utf8_decode (List.map Byte.to_N (list_byte_of_string s)).

Definition ord (a : ascii) : N := N_of_ascii a.

(** [s * n] for a one-character [s]: a non-positive count gives [''] . *)
Definition repeat_char (c : N) (n : Z) : pystr := replicate (Z.to_nat n) c.

(** [len(s)] *)
Definition len (s : pystr) : Z := Z.of_nat (length s).

Definition newline : N := 10%N.

(** Number of line feeds in a text. *)
Definition count_nl (s : pystr) : Z :=
  Z.of_nat (length (filter (fun c => c = newline) s)).

(** [s.split(sep)] for a one-character separator: never empty. *)
Fixpoint split (sep : N) (s : pystr) : list pystr :=
  match s with
  | [] => [[]]
  | c :: t =>
    if (c =? sep)%N then [] :: split sep t
    else match split sep t with
         | p :: ps => (c :: p) :: ps
         | [] => [[c]]
         end
  end.

(** Decimal digits of a natural number, as [str] prints them. *)
Fixpoint digits_of_uint (d : Decimal.uint) : pystr :=
  match d with
  | Decimal.Nil => []
  | Decimal.D0 d => 48%N :: digits_of_uint d
  | Decimal.D1 d => 49%N :: digits_of_uint d
  | Decimal.D2 d => 50%N :: digits_of_uint d
  | Decimal.D3 d => 51%N :: digits_of_uint d
  | Decimal.D4 d => 52%N :: digits_of_uint d
  | Decimal.D5 d => 53%N :: digits_of_uint d
  | Decimal.D6 d => 54%N :: digits_of_uint d
  | Decimal.D7 d => 55%N :: digits_of_uint d
  | Decimal.D8 d => 56%N :: digits_of_uint d
  | Decimal.D9 d => 57%N :: digits_of_uint d
  end.

Definition str_N (n : N) : pystr := digits_of_uint (N.to_uint n).

(** [str(n)] for an [int]. *)
Definition str_Z (n : Z) : pystr :=
  if n <? 0 then u"-" ++ str_N (Z.to_N (- n)) else str_N (Z.to_N n).

(** [f"{n:02d}"]: sign-aware zero padding to width 2. *)
Definition fmt_02d (n : Z) : pystr :=
  if n <? 0 then u"-" ++ str_N (Z.to_N (- n))
  else let d := str_N (Z.to_N n) in
       replicate (2 - length d) 48%N ++ d.

(** *** The builtin [int(str)]

    CPython first maps every non-ASCII blank to a space and every
    non-ASCII decimal digit to its ASCII digit (any other non-ASCII code
    point becomes ['?']); the two Unicode predicates are parameters.  The
    ASCII text is then read as: blanks, an optional sign, decimal digits
    with single underscores between digits, blanks.  A text with more
    digits than the interpreter's limit ([sys.get_int_max_str_digits()],
    4300 unless configured, 0 for no limit, never set between 1 and 639)
    is refused with [ValueError] as well; the limit is a parameter too. *)
Class UnicodeData := {
  to_decimal : N -> option N;
  is_uspace : N -> bool;
  int_max_str_digits : N;
  to_decimal_lt : forall c d, to_decimal c = Some d -> (d < 10)%N;
  int_max_str_digits_ok :
    int_max_str_digits = 0%N \/ (640 <= int_max_str_digits)%N
}.

Definition ascii_space (c : N) : bool :=
  ((9 <=? c) && (c <=? 13) || (c =? 32))%N.

Definition ascii_digit (c : N) : bool := ((48 <=? c) && (c <=? 57))%N.

Definition to_ascii `{UnicodeData} (c : N) : N :=
  if (c <? 127)%N then c
  else if is_uspace c then 32%N
  else match to_decimal c with
       | Some d => (48 + d)%N
       | None => 63%N
       end.

Fixpoint lstrip (s : pystr) : pystr :=
  match s with
  | c :: t => if ascii_space c then lstrip t else s
  | [] => []
  end.

Definition strip (s : pystr) : pystr := rev (lstrip (rev (lstrip s))).

(** Digits with optional single underscores between them; [prev] tells
    whether the previous character was a digit. *)
Fixpoint digits_value (acc : N) (prev : bool) (s : pystr) : option N :=
  match s with
  | [] => if prev then Some acc else None
  | c :: t =>
    if ascii_digit c then digits_value (acc * 10 + (c - 48))%N true t
    else if (c =? 95)%N && prev then digits_value acc false t
    else None
  end.

Definition int_of_ascii (s : pystr) : option Z :=
  match strip s with
  | [] => None
  | c :: t =>
    if (c =? ord "-")%N then (fun n => - Z.of_N n) <$> digits_value 0 false t
    else if (c =? ord "+")%N then Z.of_N <$> digits_value 0 false t
    else Z.of_N <$> digits_value 0 false (c :: t)
  end.

(** The digits of a text, and whether they exceed the limit. *)
Definition digit_count (s : pystr) : N :=
  N.of_nat (length (List.filter ascii_digit s)).

Definition over_limit `{UnicodeData} (s : pystr) : bool :=
  ((0 <? int_max_str_digits) && (int_max_str_digits <? digit_count s))%N.

(** [int(s)]: [None] stands for [ValueError]. *)
Definition py_int `{UnicodeData} (s : pystr) : option Z :=
  let t := List.map to_ascii s in
  match int_of_ascii t with
  | Some v => if over_limit t then None else Some v
  | None => None
  end.

(** The table that knows no code point beyond ASCII, with the limit of
    4300 digits an unconfigured interpreter has. *)
#[export] Program Instance ascii_only : UnicodeData :=
  {| to_decimal := fun _ => None; is_uspace := fun _ => false;
     int_max_str_digits := 4300 |}.
Next Obligation. discriminate. Qed.
Next Obligation. right. apply N.leb_le. reflexivity. Qed.

(** [int(x)] on a float: truncation toward zero. *)
Definition int_of_Q (x : Q) : Z := Z.quot (Qnum x) (Zpos (Qden x)).

End PyStr.
Import PyStr.

(** ** Colours and configuration *)

Module Colors.
Definition ESC : pystr := [27%N].
Definition RESET := ESC ++ u"[0m".
Definition DIM := ESC ++ u"[2m".
Definition RED := ESC ++ u"[91m".
Definition GREEN := ESC ++ u"[92m".
Definition YELLOW := ESC ++ u"[93m".
Definition BLUE := ESC ++ u"[94m".
Definition MAGENTA := ESC ++ u"[95m".
Definition CYAN := ESC ++ u"[96m".
Definition GRAY := ESC ++ u"[90m".
Definition WHITE := ESC ++ u"[97m".
Definition BLACK := ESC ++ u"[30m".
End Colors.

Record ClockConfig := mkConfig {
  focus : bool;
  bold : bool;
  white : bool;
  black : bool;
  bell_enabled : bool
}.

Definition get_color (config : ClockConfig) (default_color : pystr) : pystr :=
  if white config then Colors.WHITE
  else if black config then Colors.BLACK
  else default_color.

(** ** Glyph tables *)

Definition SEGMENTS : gmap N (list pystr) := list_to_map [
  (ord "0", [u"┌───┐"; u"│   │"; u"│   │"; u"└───┘"]);
  (ord "1", [u"    ┐"; u"    │"; u"    │"; u"    ┴"]);
  (ord "2", [u"┌───┐"; u"    │"; u"┌───┘"; u"└───┘"]);
  (ord "3", [u"┌───┐"; u"    │"; u"  ──┤"; u"└───┘"]);
  (ord "4", [u"┐   ┐"; u"└───┤"; u"    │"; u"    ┘"]);
  (ord "5", [u"┌───┐"; u"└───┐"; u"┌   │"; u"└───┘"]);
  (ord "6", [u"┌───┐"; u"├───┐"; u"│   │"; u"└───┘"]);
  (ord "7", [u"┌───┐"; u"    │"; u"    │"; u"    ┘"]);
  (ord "8", [u"┌───┐"; u"├───┤"; u"│   │"; u"└───┘"]);
  (ord "9", [u"┌───┐"; u"└───┤"; u"    │"; u"    ┘"]);
  (ord ":", [u" "; u"●"; u"●"; u" "]);
  (ord " ", [u"     "; u"     "; u"     "; u"     "])
].

Definition SEGMENTS_BOLD : gmap N (list pystr) := list_to_map [
  (ord "0", [u"╔═════╗"; u"║     ║"; u"║     ║"; u"╚═════╝"]);
  (ord "1", [u"      ║"; u"      ║"; u"      ║"; u"      ║"]);
  (ord "2", [u"╔═════╗"; u"      ║"; u"╔═════╝"; u"╚═════╝"]);
  (ord "3", [u"╔═════╗"; u"      ║"; u" ═════╣"; u"╚═════╝"]);
  (ord "4", [u"╗     ║"; u"║     ║"; u"╚═════╣"; u"      ║"]);
  (ord "5", [u"╔═════╗"; u"║      "; u"╚═════╗"; u"╚═════╝"]);
  (ord "6", [u"╔═════╗"; u"║      "; u"╠═════╗"; u"╚═════╝"]);
  (ord "7", [u"╔═════╗"; u"      ║"; u"      ║"; u"      ║"]);
  (ord "8", [u"╔═════╗"; u"║     ║"; u"╠═════╣"; u"╚═════╝"]);
  (ord "9", [u"╔═════╗"; u"║     ║"; u"╚═════╣"; u"╚═════╝"]);
  (ord ":", [u" "; u"●"; u"●"; u" "]);
  (ord " ", [u"       "; u"       "; u"       "; u"       "])
].

Definition DISPLAY_LINES_TIME_ONLY : Z := 5.
Definition DISPLAY_LINES_WITH_LABEL : Z := 7.
Definition DISPLAY_LINES_FOCUS_WITH_BAR : Z := 8.
Definition DISPLAY_LINES_WITH_BAR : Z := 9.
Definition MIN_BAR_LENGTH : Z := 20.
Definition MAX_BAR_LENGTH : Z := 100.
Definition BAR_MARGIN : Z := 20.

(** ** The glyph block of [Display.print_time] *)

Definition segments_of (config : ClockConfig) : gmap N (list pystr) :=
  if bold config then SEGMENTS_BOLD else SEGMENTS.

(** [for i in range(4): lines[i] += glyph[i] + ' '] *)
Definition add_glyph (glyph lines : list pystr) : list pystr :=
  foldl (fun ls i => <[i := (ls !!! i) ++ (glyph !!! i) ++ u" "]> ls)
        lines (seq 0 4).

(** The loop over the characters of [time_str], from [lines = [''] * 4]. *)
Definition glyph_rows (segments : gmap N (list pystr)) (time_str : pystr)
  : list pystr :=
  foldl (fun lines char =>
           match segments !! char with
           | Some glyph => add_glyph glyph lines
           | None => lines
           end)
        (replicate 4 []) time_str.

(** ** Time values *)

Definition format_time (seconds : Z) : pystr :=
  let hours := seconds / 3600 in
  let minutes := (seconds mod 3600) / 60 in
  let secs := seconds mod 60 in
  if 0 <? hours
  then fmt_02d hours ++ u":" ++ fmt_02d minutes ++ u":" ++ fmt_02d secs
  else fmt_02d minutes ++ u":" ++ fmt_02d secs.

(** A call either returns a value or raises [ValueError] with a message. *)
Inductive result (A : Type) :=
| Ok (a : A)
| ValueError (msg : pystr).
Arguments Ok {A} a.
Arguments ValueError {A} msg.

Definition duration_error : pystr :=
  u"Duration must be in format: MM:SS, HH:MM:SS, or seconds".

(** Every failure inside the [try] block, the inner [raise] included, is
    re-raised with the one message. *)
Definition parse_duration `{UnicodeData} (duration_str : pystr) : result Z :=
  let parts := split (ord ":") duration_str in
  let body :=
    match parts with
    | [p0] => py_int p0
    | [p0; p1] =>
      a ← py_int p0; b ← py_int p1; Some (a * 60 + b)
    | [p0; p1; p2] =>
      a ← py_int p0; b ← py_int p1; c ← py_int p2;
      Some (a * 3600 + b * 60 + c)
    | _ => None
    end in
  match body with
  | Some v => Ok v
  | None => ValueError duration_error
  end.

(** ** Terminal output *)

(** What a mode does to the terminal, in order.  [Print s] is one call of
    [print(s)]: the text and a line feed.  [PrintBar] is the call that
    prints the row [pad[bar] pct%] of the progress bar; its cell count and
    percentage are float computations on [progress] and are kept
    symbolic, the row holds no line feed. *)
Inductive event :=
| Print (s : pystr)
| PrintBar (bar_padding bar_length : Z) (bar_color : pystr) (progress : Q)
| MoveUp (lines : Z)
| ClearScreen
| Sleep (seconds : Q)
| Bell.

(** Terminal lines an event advances the cursor by. *)
Definition lines_of (e : event) : Z :=
  match e with
  | Print s => 1 + count_nl s
  | PrintBar _ _ _ _ => 1
  | _ => 0
  end.

Definition lines_printed (tr : list event) : Z :=
  foldr (fun e n => lines_of e + n) 0 tr.

Module Display.

(** [cols] is the width [TerminalUtils.get_width()] reports during the
    call. *)
Definition center_padding (cols text_length : Z) : Z :=
  Z.max 0 ((cols - text_length) / 2).

Definition print_time (config : ClockConfig) (cols : Z)
    (time_str color : pystr) (move_back : bool) : list event :=
  let lines := glyph_rows (segments_of config) time_str in
  let col := get_color config color in
  (if move_back then [] else [Print []])
  ++ List.map (fun line =>
         let padding := Z.max 0 ((cols - len line) / 2) in
         Print (repeat_char 32 padding ++ col ++ line ++ Colors.RESET))
       lines
  ++ [Print []].

Definition print_label (config : ClockConfig) (cols : Z)
    (label color : pystr) : list event :=
  let col := get_color config color in
  let padding := center_padding cols (len label) in
  [Print ([13%N] ++ repeat_char 32 cols ++ [13%N] ++ repeat_char 32 padding
          ++ col ++ label ++ Colors.RESET ++ [newline])].

Definition print_progress_bar (config : ClockConfig) (cols : Z)
    (progress : Q) (color : pystr) : list event :=
  let bar_length :=
    Z.max MIN_BAR_LENGTH (Z.min MAX_BAR_LENGTH (cols - BAR_MARGIN)) in
  let bar_padding := Z.max 0 ((cols - bar_length - 10) / 2) in
  let bar_color := get_color config color in
  [PrintBar bar_padding bar_length bar_color progress; Print []].

End Display.

(** ** Input of a running mode *)

(** One loop iteration either reads what the environment offers or is cut
    short by Ctrl+C; the interrupt is taken where the loop polls. *)
Inductive input (A : Type) :=
| Tick (a : A)
| CtrlC.
Arguments Tick {A} a.
Arguments CtrlC {A}.

(** How a call ended: it returned, it raised [ZeroDivisionError], or the
    recorded input ran out while the loop was still going. *)
Inductive outcome (A : Type) :=
| Returned (a : A)
| Raised
| Pending.
Arguments Returned {A} a.
Arguments Raised {A}.
Arguments Pending {A}.

Definition key_q : N := ord "q".
Definition key_r : N := ord "r".

Definition pressed (k : N) (key : option N) : bool :=
  match key with
  | Some c => (c =? k)%N
  | None => false
  end.

(** ** Clock mode *)

Module Clock.

(** What [datetime.now()] formats to and the terminal width, per frame. *)
Record reading := mkReading {
  time_str : pystr;
  date_str : pystr;
  cols : Z
}.

Definition lines_to_move (config : ClockConfig) : Z :=
  if negb (focus config) then DISPLAY_LINES_WITH_LABEL
  else DISPLAY_LINES_TIME_ONLY.

Definition draw (config : ClockConfig) (r : reading) (move_back : bool)
  : list event :=
  Display.print_time config (cols r) (time_str r) Colors.CYAN move_back
  ++ (if negb (focus config)
      then Display.print_label config (cols r) (date_str r) Colors.MAGENTA
      else []).

Fixpoint loop (config : ClockConfig) (ins : list (input reading))
  : list event * outcome unit :=
  match ins with
  | [] => ([], Pending)
  | CtrlC :: _ => ([Print []], Returned tt)
  | Tick r :: rest =>
    let '(tr, o) := loop config rest in
    ([Sleep 1; MoveUp (lines_to_move config)] ++ draw config r true ++ tr, o)
  end.

Definition clock_mode (config : ClockConfig) (first : reading)
    (ins : list (input reading)) : list event * outcome unit :=
  let '(tr, o) := loop config ins in
  ([ClearScreen] ++ draw config first false ++ tr, o).

End Clock.

(** ** Stopwatch mode *)

Module Stopwatch.

Record state := mkState {
  start_time : Q;
  elapsed : Z;
  paused : bool;
  pause_start : Q;
  first_iteration : bool
}.

(** One iteration reads a key and the width; [t_key] is what [time.time()]
    returns inside the key branch (when there is one), [t_now] what it
    returns in the elapsed computation (when not paused). *)
Record tick := mkTick {
  key : option N;
  cols : Z;
  t_key : Q;
  t_now : Q
}.

Definition init (t0 : Q) : state :=
  {| start_time := t0; elapsed := 0; paused := false; pause_start := 0;
     first_iteration := true |}.

Definition lines_to_move : Z := DISPLAY_LINES_WITH_LABEL.

(** The key branch and the elapsed update (lines 319-334). *)
Definition advance (st : state) (tk : tick) : state :=
  let st1 :=
    if pressed key_q (key tk) then
      let p := negb (paused st) in
      if p
      then {| start_time := start_time st; elapsed := elapsed st;
              paused := p; pause_start := t_key tk;
              first_iteration := first_iteration st |}
      else {| start_time := start_time st + (t_key tk - pause_start st);
              elapsed := elapsed st; paused := p;
              pause_start := pause_start st;
              first_iteration := first_iteration st |}
    else if pressed key_r (key tk) then
      {| start_time := t_key tk; elapsed := 0; paused := false;
         pause_start := pause_start st;
         first_iteration := first_iteration st |}
    else st in
  if negb (paused st1)
  then {| start_time := start_time st1;
          elapsed := int_of_Q (t_now tk - start_time st1);
          paused := paused st1; pause_start := pause_start st1;
          first_iteration := first_iteration st1 |}
  else st1.

(** What one iteration prints after the cursor move (lines 340-353). *)
Definition draw (config : ClockConfig) (st : state) (w : Z) : list event :=
  Display.print_time config w (format_time (elapsed st)) Colors.BLUE true
  ++ (if negb (focus config) then
        let label := if paused st then u"⏸ Paused (q: resume, r: reset)"
                     else u"▶ Running (q: pause, r: reset)" in
        Display.print_label config w label Colors.MAGENTA
      else if paused st then
        let pause_text := u"⏸ Paused" in
        let col := get_color config Colors.GRAY in
        let padding := Display.center_padding w (len pause_text) in
        [Print (repeat_char 32 padding ++ col ++ pause_text
                ++ Colors.RESET ++ [newline])]
      else [Print []]).

Record frame := mkFrame {
  shown : state;
  before : list event;
  drawn : list event
}.

Definition step (config : ClockConfig) (st : state) (tk : tick)
  : state * frame :=
  let st' := advance st tk in
  let mv := if negb (first_iteration st') then [MoveUp lines_to_move]
            else [] in
  let st'' := {| start_time := start_time st'; elapsed := elapsed st';
                 paused := paused st'; pause_start := pause_start st';
                 first_iteration := false |} in
  (st'', {| shown := st''; before := mv;
            drawn := draw config st'' (cols tk) |}).

Fixpoint loop (config : ClockConfig) (st : state) (ins : list (input tick))
  : list frame * list event * outcome unit :=
  match ins with
  | [] => ([], [], Pending)
  | CtrlC :: _ => ([], [Print []], Returned tt)
  | Tick tk :: rest =>
    let '(st', fr) := step config st tk in
    let '(frs, tl, o) := loop config st' rest in
    (fr :: frs, tl, o)
  end.

Definition events_of (frs : list frame) : list event :=
  flat_map (fun fr => before fr ++ drawn fr ++ [Sleep (1 # 10)]) frs.

Definition stopwatch_mode (config : ClockConfig) (t0 : Q)
    (ins : list (input tick)) : list event * outcome unit :=
  let '(frs, tl, o) := loop config (init t0) ins in
  ([ClearScreen] ++ events_of frs ++ tl, o).

End Stopwatch.

(** ** The countdown engine *)

Module Countdown.

Record tick := mkTick {
  key : option N;
  cols : Z
}.

(** [a / b] on integers: [None] is [ZeroDivisionError]. *)
Definition truediv (a b : Z) : option Q :=
  if b =? 0 then None else Some (inject_Z a / inject_Z b)%Q.

(** Line 408. *)
Definition progress (total_seconds remaining : Z) : option Q :=
  if 0 <? total_seconds
  then truediv (total_seconds - remaining) total_seconds
  else Some 1%Q.

Definition lines_to_move (config : ClockConfig) : Z :=
  if focus config then DISPLAY_LINES_FOCUS_WITH_BAR
  else DISPLAY_LINES_WITH_BAR.

(** The glyph block and the label or pause row (lines 393-406). *)
Definition draw_head (config : ClockConfig) (label color : pystr)
    (remaining : Z) (paused : bool) (w : Z) : list event :=
  Display.print_time config w (format_time remaining) color true
  ++ (if negb (focus config) then
        let label_text := if paused then u"⏸ Paused - " ++ label
                          else u"▶ " ++ label in
        Display.print_label config w label_text Colors.MAGENTA
      else if paused then
        let pause_text := u"⏸ Paused" in
        let col := get_color config Colors.GRAY in
        let padding := Display.center_padding w (len pause_text) in
        [Print ([13%N] ++ repeat_char 32 w ++ [13%N]
                ++ repeat_char 32 padding ++ col ++ pause_text
                ++ Colors.RESET)]
      else [Print ([13%N] ++ repeat_char 32 w ++ [13%N])]).

(** The bar (lines 409-410). *)
Definition draw_bar (config : ClockConfig) (color : pystr) (p : Q) (w : Z)
  : list event :=
  let bar_color := if negb (focus config) then color else Colors.GRAY in
  Display.print_progress_bar config w p bar_color.

(** One rendered iteration: the value shown, the pause flag after the key,
    the fraction passed to the bar, what precedes the drawing (the sleep
    and the cursor move) and what is drawn. *)
Record frame := mkFrame {
  shown : Z;
  shown_paused : bool;
  fraction : Q;
  before : list event;
  drawn : list event
}.

Record run := mkRun {
  frames : list frame;
  tail_events : list event;
  result : outcome bool;
  rest : list (input tick)
}.

Definition cons_frame (fr : frame) (r : run) : run :=
  {| frames := fr :: frames r; tail_events := tail_events r;
     result := result r; rest := rest r |}.

(** The [while remaining >= 0] loop inside the [try]. *)
Fixpoint loop (config : ClockConfig) (total_seconds : Z) (label color : pystr)
    (remaining : Z) (paused first_iteration : bool)
    (ins : list (input tick)) : run :=
  if remaining <? 0 then mkRun [] [] (Returned false) ins else
  match ins with
  | [] => mkRun [] [] Pending []
  | CtrlC :: ins' => mkRun [] [Print []] (Returned true) ins'
  | Tick tk :: ins' =>
    let paused := if pressed key_q (key tk) then negb paused else paused in
    let pre := if negb first_iteration
               then [Sleep 1; MoveUp (lines_to_move config)] else [] in
    let head := draw_head config label color remaining paused (cols tk) in
    match progress total_seconds remaining with
    | None => mkRun [] (pre ++ head) Raised ins'
    | Some p =>
      let fr := {| shown := remaining; shown_paused := paused;
                   fraction := p; before := pre;
                   drawn := head ++ draw_bar config color p (cols tk) |} in
      let remaining := if negb paused then remaining - 1 else remaining in
      cons_frame fr
        (loop config total_seconds label color remaining paused false ins')
    end
  end.

Definition countdown_timer (total_seconds : Z) (label color : pystr)
    (config : ClockConfig) (ins : list (input tick)) : run :=
  loop config total_seconds label color total_seconds false true ins.

Definition events_of (r : run) : list event :=
  flat_map (fun fr => before fr ++ drawn fr) (frames r) ++ tail_events r.

End Countdown.

(** ** Pomodoro mode *)

Module Pomodoro.

Definition work_label (session : Z) : pystr :=
  u"Session " ++ str_Z session ++ u" - Work".

Definition break_label (session : Z) : pystr :=
  u"Session " ++ str_Z session ++ u" - Break".

Definition ring (config : ClockConfig) : list event :=
  if bell_enabled config then [Bell] else [].

(** The [while True] loop; [fuel] bounds the number of sessions run. *)
Fixpoint loop (fuel : nat) (work_minutes break_minutes : Z)
    (config : ClockConfig) (session : Z)
    (ins : list (input Countdown.tick))
  : list event * outcome unit :=
  match fuel with
  | O => ([], Pending)
  | S fuel' =>
    let w := Countdown.countdown_timer (work_minutes * 60)
               (work_label session) Colors.RED config ins in
    let ev_w := [ClearScreen] ++ Countdown.events_of w in
    match Countdown.result w with
    | Returned true => (ev_w, Returned tt)
    | Raised => (ev_w, Raised)
    | Pending => (ev_w, Pending)
    | Returned false =>
      let b := Countdown.countdown_timer (break_minutes * 60)
                 (break_label session) Colors.GREEN config
                 (Countdown.rest w) in
      let ev_b := ev_w ++ ring config ++ [Sleep 2] ++ [ClearScreen]
                  ++ Countdown.events_of b in
      match Countdown.result b with
      | Returned true => (ev_b, Returned tt)
      | Raised => (ev_b, Raised)
      | Pending => (ev_b, Pending)
      | Returned false =>
        let '(tr, o) := loop fuel' work_minutes break_minutes config
                          (session + 1) (Countdown.rest b) in
        (ev_b ++ ring config ++ [Sleep 2] ++ tr, o)
      end
    end
  end.

Definition pomodoro_mode (work_minutes break_minutes : Z)
    (config : ClockConfig) (ins : list (input Countdown.tick))
  : list event * outcome unit :=
  loop (S (length ins)) work_minutes break_minutes config 1 ins.

End Pomodoro.

(** ** Timer mode and the entry point *)

Definition error_line (msg : pystr) : event :=
  Print (Colors.RED ++ u"Error: " ++ msg ++ Colors.RESET).

Definition timer_mode `{UnicodeData} (duration_str : pystr)
    (config : ClockConfig) (ins : list (input Countdown.tick))
  : list event * outcome unit :=
  match parse_duration duration_str with
  | ValueError msg => ([error_line msg], Returned tt)
  | Ok total_seconds =>
    if total_seconds <=? 0
    then ([error_line (u"Duration must be positive")], Returned tt)
    else
      let r := Countdown.countdown_timer total_seconds (u"Countdown Timer")
                 Colors.YELLOW config ins in
      let ev := [ClearScreen] ++ Countdown.events_of r in
      match Countdown.result r with
      | Returned _ =>
        (ev ++ (if bell_enabled config then [Bell] else []), Returned tt)
      | Raised => (ev, Raised)
      | Pending => (ev, Pending)
      end
  end.

(** The namespace [argparse] returns. *)
Record Args := mkArgs {
  a_focus : bool;
  a_bold : bool;
  a_white : bool;
  a_black : bool;
  a_no_bell : bool;
  a_pomodoro : option pystr;
  a_stopwatch : bool;
  a_timer : option pystr
}.

(** What the terminal and the clock feed to whichever mode runs. *)
Record Env := mkEnv {
  clock_first : Clock.reading;
  clock_in : list (input Clock.reading);
  stopwatch_t0 : Q;
  stopwatch_in : list (input Stopwatch.tick);
  countdown_in : list (input Countdown.tick)
}.

(** Truth value of an optional string argument. *)
Definition given (a : option pystr) : option pystr :=
  match a with
  | Some (c :: s) => Some (c :: s)
  | _ => None
  end.

(** [work_min, break_min = map(int, s.split(','))] followed by the
    positivity check: [None] is [ValueError]. *)
Definition pomodoro_minutes `{UnicodeData} (s : pystr) : option (Z * Z) :=
  match split (ord ",") s with
  | [p0; p1] =>
    work_min ← py_int p0; break_min ← py_int p1;
    if (work_min <=? 0) || (break_min <=? 0) then None
    else Some (work_min, break_min)
  | _ => None
  end.

(** The process: what it prints and its exit status ([None] while the
    chosen mode is still running on the recorded input). *)
Definition main `{UnicodeData} (args : Args) (env : Env)
  : list event * option Z :=
  if a_white args && a_black args then
    ([error_line (u"--white and --black are mutually exclusive")], Some 1)
  else
    let config := {| focus := a_focus args; bold := a_bold args;
                     white := a_white args; black := a_black args;
                     bell_enabled := negb (a_no_bell args) |} in
    let finish (r : list event * outcome unit) :=
      match r with
      | (tr, Returned _) => (tr, Some 0)
      | (tr, Raised) =>
        (tr ++ [Print (Colors.RED ++ u"Unexpected error: division by zero"
                       ++ Colors.RESET)], Some 1)
      | (tr, Pending) => (tr, None)
      end in
    match given (a_pomodoro args) with
    | Some s =>
      match pomodoro_minutes s with
      | Some (work_min, break_min) =>
        finish (Pomodoro.pomodoro_mode work_min break_min config
                  (countdown_in env))
      | None =>
        ([error_line (u"Pomodoro format is W,B (e.g., 25,5)")], Some 1)
      end
    | None =>
      if a_stopwatch args then
        finish (Stopwatch.stopwatch_mode config (stopwatch_t0 env)
                  (stopwatch_in env))
      else match given (a_timer args) with
      | Some s => finish (timer_mode s config (countdown_in env))
      | None =>
        finish (Clock.clock_mode config (clock_first env) (clock_in env))
      end
    end.

(** ** Vocabulary of the statements *)

(** The characters that have a glyph: digits, colon, space. *)
Definition known (c : N) : bool :=
  ascii_digit c || (c =? ord ":")%N || (c =? ord " ")%N.

(** Columns of a glyph in the normal and in the bold style. *)
Definition glyph_width (bold_style : bool) (c : N) : nat :=
  if (c =? ord ":")%N then 1%nat
  else if bold_style then 7%nat else 5%nat.

(** Width of a rendered row: each known character gives its glyph and one
    separator column. *)
Definition text_width (bold_style : bool) (text : pystr) : nat :=
  sum_list_with
    (fun c => if known c then S (glyph_width bold_style c) else 0%nat) text.

(** A glyph is well formed for [c] when it has four rows of the width of
    [c] in the given style, none holding a line feed. *)
Definition glyph_ok (bold_style : bool) (c : N) (g : list pystr) : Prop :=
  exists r0 r1 r2 r3, g = [r0; r1; r2; r3] /\
    Forall (fun r => length r = glyph_width bold_style c) g /\
    Forall (fun r => count_nl r = 0) g.

(** A decimal numeral of [n] with [zeros] leading zeros. *)
Definition decimal (zeros : nat) (n : N) : pystr :=
  replicate zeros 48%N ++ str_N n.

(** The two-digit field [dd] of a value below 100. *)
Definition two_digits (v : Z) : pystr :=
  [Z.to_N (48 + v / 10); Z.to_N (48 + v mod 10)].

(** [n] values counting down from [r]. *)
Fixpoint descending (r : Z) (n : nat) : list Z :=
  match n with
  | O => []
  | S n' => r :: descending (r - 1) n'
  end.

(** Between two consecutive frames of a countdown the value drops by one
    when the earlier frame was not paused, and stays when it was. *)
Fixpoint ticks_down (frs : list Countdown.frame) : Prop :=
  match frs with
  | f1 :: ((f2 :: _) as t) =>
    Countdown.shown f2
    = (if Countdown.shown_paused f1 then Countdown.shown f1
       else Countdown.shown f1 - 1)
    /\ ticks_down t
  | _ => True
  end.

(** A tick that does not carry the pause key. *)
Definition no_pause (tk : Countdown.tick) : Prop :=
  pressed key_q (Countdown.key tk) = false.

(** A run that starts with the frames [frs] and goes on as [r]. *)
Definition prepend_frames (frs : list Countdown.frame) (r : Countdown.run)
  : Countdown.run :=
  {| Countdown.frames := frs ++ Countdown.frames r;
     Countdown.tail_events := Countdown.tail_events r;
     Countdown.result := Countdown.result r;
     Countdown.rest := Countdown.rest r |}.

(** What precedes the drawing of every frame but the first of a call. *)
Definition countdown_pause (config : ClockConfig) : list event :=
  [Sleep 1; MoveUp (Countdown.lines_to_move config)].

(** Successive clock readings that never go back, starting from [t]. *)
Fixpoint monotone_ticks (t : Q) (tks : list Stopwatch.tick) : Prop :=
  match tks with
  | [] => True
  | tk :: tks' =>
    (t <= Stopwatch.t_key tk)%Q
    /\ (Stopwatch.t_key tk <= Stopwatch.t_now tk)%Q
    /\ monotone_ticks (Stopwatch.t_now tk) tks'
  end.

(** The reference start never lies after the latest reading, and a
    pause began between the two. *)
Definition stopwatch_inv (st : Stopwatch.state) (now : Q) : Prop :=
  (Stopwatch.start_time st <= now)%Q
  /\ (Stopwatch.paused st = true ->
      (Stopwatch.start_time st <= Stopwatch.pause_start st)%Q
      /\ (Stopwatch.pause_start st <= now)%Q).

(** An iteration of the stopwatch at the instant [t], on the key [k]. *)
Definition at_time (k : option N) (t : Q) : Stopwatch.tick :=
  {| Stopwatch.key := k; Stopwatch.cols := 80;
     Stopwatch.t_key := t; Stopwatch.t_now := t |}.


(** The events of the Pomodoro loop itself: clearing the screen, the
    bell, and the two-second sleep between phases. *)
Definition between_phases (e : event) : bool :=
  match e with
  | ClearScreen | Bell => true
  | Sleep s => Qeq_bool s 2
  | _ => false
  end.

(** The frames of a countdown rendered while not paused. *)
Definition unpaused (frs : list Countdown.frame) : list Countdown.frame :=
  List.filter (fun fr => negb (Countdown.shown_paused fr)) frs.

(** The input a countdown run has consumed: the ticks of its frames and,
    when it was interrupted, the interrupt. *)
Definition consumed (tks : list Countdown.tick) (r : Countdown.run)
  : list (input Countdown.tick) :=
  List.map Tick tks
  ++ match Countdown.result r with
     | Returned true => [CtrlC]
     | _ => []
     end.



(** Along a run started at [t0]: the reference start has only moved
    forward, and [elapsed] lies between 0 and the time since [t0]. *)
Definition stopwatch_bounds (t0 : Q) (st : Stopwatch.state) (now : Q) : Prop :=
  stopwatch_inv st now
  /\ (t0 <= Stopwatch.start_time st)%Q
  /\ 0 <= Stopwatch.elapsed st
  /\ (inject_Z (Stopwatch.elapsed st) <= now - t0)%Q.

(** The pause flag after each of the keys, from the flag [p]: it flips
    on ['q'] and on nothing else. *)
Fixpoint toggles (p : bool) (keys : list (option N)) : list bool :=
  match keys with
  | [] => []
  | k :: ks =>
    let p' := if pressed key_q k then negb p else p in
    p' :: toggles p' ks
  end.

(** A text whose length is no more than the limit on digits, or any
    text when the limit is off. *)
Definition within_limit `{UnicodeData} (s : pystr) : Prop :=
  int_max_str_digits = 0%N \/ (N.of_nat (length s) <= int_max_str_digits)%N.

(** What an iteration of the countdown prints while not paused (lines
    393-410): the glyphs of the formatted value, the label row (in focus
    mode the blanked row), and the progress bar. *)
Definition running_frame (config : ClockConfig) (label color : pystr)
    (value : Z) (p : Q) (w : Z) : list event :=
  Display.print_time config w (format_time value) color true
  ++ (if negb (focus config)
      then Display.print_label config w (u"▶ " ++ label) Colors.MAGENTA
      else [Print ([13%N] ++ repeat_char 32 w ++ [13%N])])
  ++ Display.print_progress_bar config w p
       (if negb (focus config) then color else Colors.GRAY).

(** The fractions of the progress-bar rows in what is printed, in
    order. *)
Fixpoint bar_fractions (tr : list event) : list Q :=
  match tr with
  | [] => []
  | PrintBar _ _ _ p :: tr' => p :: bar_fractions tr'
  | _ :: tr' => bar_fractions tr'
  end.

(** Columns the row of the progress bar takes (line 198): the padding,
    ['['], the cells, ['] '] and the percentage text of [percent]
    characters; the colour codes take none. *)
Definition bar_row_width (bar_padding bar_length percent : Z) : Z :=
  bar_padding + 1 + bar_length + 2 + percent.

(** * Properties *)

(** ** Glyph rendering *)

Section GlyphFacts.

Lemma known_cases c :
  known c = true ->
  c ∈ [48; 49; 50; 51; 52; 53; 54; 55; 56; 57; 58; 32]%N.
Proof.
  unfold known, ascii_digit. cbn [ord N_of_ascii].
  rewrite !orb_true_iff, andb_true_iff, !N.leb_le, !N.eqb_eq.
  intros [[[Hlo Hhi] | ->] | ->]; [| set_solver | set_solver].
  assert (Hc : (c = 48 \/ c = 49 \/ c = 50 \/ c = 51 \/ c = 52 \/ c = 53
                \/ c = 54 \/ c = 55 \/ c = 56 \/ c = 57)%N) by lia.
  repeat destruct Hc as [-> | Hc]; try subst c; set_solver.
Qed.

Lemma segments_known config c :
  known c = true ->
  exists g, segments_of config !! c = Some g /\ glyph_ok (bold config) c g.
Proof.
  intros Hk. apply known_cases in Hk. unfold segments_of.
  destruct (bold config);
    repeat (apply elem_of_cons in Hk as [-> | Hk]);
    try (apply elem_of_nil in Hk; contradiction);
    (eexists; split; [vm_compute; reflexivity |];
     do 4 eexists; split; [reflexivity |];
     split; repeat constructor).
Qed.

Lemma segments_unknown config c :
  known c = false -> segments_of config !! c = None.
Proof.
  intros Hk. unfold segments_of.
  destruct (bold config); unfold SEGMENTS, SEGMENTS_BOLD;
    apply not_elem_of_list_to_map_1; intros Hin;
    cbn [fmap list_fmap fst] in Hin;
    repeat (apply elem_of_cons in Hin as [-> | Hin]);
    try discriminate; apply elem_of_nil in Hin; contradiction.
Qed.

Lemma add_glyph_rows g0 g1 g2 g3 l0 l1 l2 l3 :
  add_glyph [g0; g1; g2; g3] [l0; l1; l2; l3]
  = [l0 ++ g0 ++ u" "; l1 ++ g1 ++ u" "; l2 ++ g2 ++ u" ";
     l3 ++ g3 ++ u" "].
Proof. reflexivity. Qed.

(** The loop keeps four rows of one width, which grows with the text. *)
Lemma glyph_loop_shape config text : forall lines w,
  length lines = 4%nat ->
  Forall (fun r => length r = w) lines ->
  let rows :=
    foldl (fun lines char =>
             match segments_of config !! char with
             | Some glyph => add_glyph glyph lines
             | None => lines
             end) lines text in
  length rows = 4%nat /\
  Forall (fun r => length r = (w + text_width (bold config) text)%nat) rows.
Proof.
  induction text as [| c text IH]; intros lines w Hlen Hw; cbn zeta.
  - cbn. rewrite Nat.add_0_r. auto.
  - cbn [foldl text_width sum_list_with].
    destruct (known c) eqn:Hk.
    + destruct (segments_known config c Hk)
        as (g & -> & r0 & r1 & r2 & r3 & -> & Hg & _).
      destruct lines as [| l0 [| l1 [| l2 [| l3 [| ? ?]]]]];
        try discriminate.
      rewrite add_glyph_rows.
      specialize (IH
        [l0 ++ r0 ++ u" "; l1 ++ r1 ++ u" "; l2 ++ r2 ++ u" ";
         l3 ++ r3 ++ u" "] (w + S (glyph_width (bold config) c))%nat
        eq_refl).
      cbn zeta in IH. rewrite <- Nat.add_assoc in IH. apply IH.
      repeat match goal with
             | H : Forall _ (_ :: _) |- _ => inversion H; subst; clear H
             end.
      repeat constructor; rewrite !length_app; cbn; lia.
    + rewrite (segments_unknown config c Hk). cbn [Nat.add].
      apply IH; assumption.
Qed.

End GlyphFacts.

(** C9. For every text and style the glyph block has exactly four rows,
    all of the same width: the sum, over the known characters (digits,
    colon, space), of the glyph width plus one separator column.  A
    character without a glyph adds nothing to any row, wherever it stands,
    so the block of ["1x"] is the block of ["1"]. *)
Theorem glyph_rows_four_equal_rows (config : ClockConfig) (text : pystr) :
  let rows := glyph_rows (segments_of config) text in
  length rows = 4%nat
  /\ Forall (fun r => length r = text_width (bold config) text) rows
  /\ (forall pre c post, known c = false ->
        glyph_rows (segments_of config) (pre ++ c :: post)
        = glyph_rows (segments_of config) (pre ++ post))
  /\ glyph_rows (segments_of config) (u"1x")
     = glyph_rows (segments_of config) (u"1").
Proof.
  cbn zeta. unfold glyph_rows.
  destruct (glyph_loop_shape config text (replicate 4 []) 0 eq_refl)
    as [H4 Hw]; [repeat constructor |].
  repeat split; try assumption.
  - intros pre c post Hk.
    rewrite !foldl_app. cbn [foldl].
    rewrite (segments_unknown config c Hk). reflexivity.
  - unfold segments_of. destruct (bold config); vm_compute; reflexivity.
Qed.

(** ** Numerals: [str] and [int] *)

Section NumeralFacts.
Context `{UD : UnicodeData}.

(** Decide the digit test on a literal character. *)
Ltac digit_step :=
  match goal with
  | |- context [ascii_digit ?c] => change (ascii_digit c) with true; cbv iota
  end.

Lemma digits_of_uint_ascii d : Forall (fun c => ascii_digit c = true) (digits_of_uint d).
Proof. induction d; constructor; auto. Qed.

Lemma digits_value_acc d : forall acc : positive,
  digits_value (Npos acc) true (digits_of_uint d)
  = Some (Npos (Pos.of_uint_acc d acc)).
Proof.
  induction d; intros acc; cbn [digits_of_uint digits_value];
    try reflexivity; digit_step; cbn [Pos.of_uint_acc];
    rewrite <- IHd; f_equal; lia.
Qed.

Lemma digits_value_of_uint d :
  digits_value 0 true (digits_of_uint d) = Some (N.of_uint d).
Proof.
  induction d; try reflexivity;
    cbn [digits_of_uint digits_value N.of_uint Pos.of_uint]; digit_step;
    first [ exact IHd | apply (digits_value_acc d) ].
Qed.

(** The first character of a numeral is a digit, so the flag it starts
    from does not matter. *)
Lemma digits_value_head acc c t :
  ascii_digit c = true ->
  digits_value acc false (c :: t) = digits_value acc true (c :: t).
Proof. intros Hc. cbn [digits_value]. rewrite Hc. reflexivity. Qed.

Lemma digits_value_zeros k : forall s,
  digits_value 0 true (replicate k 48%N ++ s) = digits_value 0 true s.
Proof. induction k; intros s; [reflexivity | exact (IHk s)]. Qed.

Lemma to_uint_nonnil n : N.to_uint n <> Decimal.Nil.
Proof.
  destruct n; [discriminate |].
  apply DecimalPos.Unsigned.to_uint_nonnil.
Qed.

Lemma str_N_cons n : exists c t, str_N n = c :: t /\ ascii_digit c = true.
Proof.
  unfold str_N. pose proof (to_uint_nonnil n) as Hn.
  pose proof (digits_of_uint_ascii (N.to_uint n)) as Hd.
  destruct (N.to_uint n); try contradiction;
    cbn [digits_of_uint] in *; inversion Hd; eauto.
Qed.

Lemma decimal_ascii k n : Forall (fun c => ascii_digit c = true) (decimal k n).
Proof.
  unfold decimal. apply Forall_app. split.
  - apply Forall_replicate. reflexivity.
  - apply digits_of_uint_ascii.
Qed.

Lemma decimal_cons k n :
  exists c t, decimal k n = c :: t /\ ascii_digit c = true.
Proof.
  destruct k as [| k].
  - apply str_N_cons.
  - exists 48%N, (replicate k 48%N ++ str_N n). split; reflexivity.
Qed.

Lemma digits_value_decimal k n :
  digits_value 0 false (decimal k n) = Some n.
Proof.
  destruct (decimal_cons k n) as (c & t & E & Hc).
  rewrite E, (digits_value_head 0 c t Hc), <- E.
  unfold decimal. rewrite digits_value_zeros.
  unfold str_N. rewrite digits_value_of_uint.
  f_equal. apply DecimalN.Unsigned.of_to.
Qed.

(** Blanks at either end are all that [strip] removes. *)
Lemma lstrip_head c t : ascii_space c = false -> lstrip (c :: t) = c :: t.
Proof. intros Hc. cbn. rewrite Hc. reflexivity. Qed.

Lemma digit_not_space c : ascii_digit c = true -> ascii_space c = false.
Proof.
  unfold ascii_digit, ascii_space.
  rewrite andb_true_iff, !N.leb_le. intros [Hlo Hhi].
  apply orb_false_iff. split.
  - apply andb_false_iff. right. apply N.leb_gt. lia.
  - apply N.eqb_neq. lia.
Qed.

Lemma strip_digits s :
  Forall (fun c => ascii_digit c = true) s -> strip s = s.
Proof.
  intros Hs. unfold strip.
  assert (Hl : forall l, Forall (fun c => ascii_digit c = true) l ->
                         lstrip l = l).
  { intros [| c t] Hl; [reflexivity |].
    apply lstrip_head, digit_not_space.
    inversion Hl; assumption. }
  rewrite (Hl s Hs), Hl, rev_involutive; [reflexivity |].
  apply Forall_rev. assumption.
Qed.

Lemma to_ascii_digit c : ascii_digit c = true -> to_ascii c = c.
Proof.
  unfold ascii_digit, to_ascii. rewrite andb_true_iff, !N.leb_le.
  intros [Hlo Hhi].
  destruct (c <? 127)%N eqn:E; [reflexivity |].
  apply N.ltb_ge in E. lia.
Qed.

Lemma map_to_ascii_digits s :
  Forall (fun c => ascii_digit c = true) s -> List.map to_ascii s = s.
Proof.
  induction 1 as [| c t Hc Ht IH]; [reflexivity |].
  cbn [List.map]. rewrite IH, (to_ascii_digit c Hc). reflexivity.
Qed.

Lemma digit_count_le s : (digit_count s <= N.of_nat (length s))%N.
Proof.
  unfold digit_count. pose proof (List.filter_length_le ascii_digit s). lia.
Qed.

Lemma digit_count_digits s :
  Forall (fun c => ascii_digit c = true) s ->
  digit_count s = N.of_nat (length s).
Proof.
  intros Hs. unfold digit_count. f_equal.
  induction Hs as [| c t Hc Ht IH]; [reflexivity |].
  cbn [List.filter]. rewrite Hc. cbn [length]. rewrite IH. reflexivity.
Qed.

(** Within the limit the digits are never too many; a text of at most
    640 characters is within every limit. *)
Lemma within_limit_ok s : within_limit s -> over_limit s = false.
Proof.
  unfold within_limit, over_limit. pose proof (digit_count_le s) as Hd.
  intros [-> | Hle]; [reflexivity |].
  apply andb_false_iff. right. apply N.ltb_ge. lia.
Qed.

Lemma short_within_limit s : (length s <= 640)%nat -> within_limit s.
Proof.
  intros Hs. unfold within_limit.
  destruct int_max_str_digits_ok as [H0 | H640]; [left; exact H0 |].
  right. lia.
Qed.

Lemma beyond_limit_over s :
  Forall (fun c => ascii_digit c = true) s ->
  (0 < int_max_str_digits)%N ->
  (int_max_str_digits < N.of_nat (length s))%N ->
  over_limit s = true.
Proof.
  intros Hs H0 Hlt. unfold over_limit. rewrite (digit_count_digits s Hs).
  apply andb_true_iff. split; apply N.ltb_lt; assumption.
Qed.

(** On a text of at most 640 characters [int] is the reading of the
    ASCII grammar. *)
Lemma py_int_short s :
  (length s <= 640)%nat ->
  py_int s = int_of_ascii (List.map to_ascii s).
Proof.
  intros Hs. unfold py_int. cbv zeta.
  rewrite (within_limit_ok (List.map to_ascii s))
    by (apply short_within_limit; rewrite length_map; exact Hs).
  destruct (int_of_ascii (List.map to_ascii s)); reflexivity.
Qed.

Lemma int_of_ascii_decimal k n :
  int_of_ascii (decimal k n) = Some (Z.of_N n).
Proof.
  unfold int_of_ascii.
  rewrite (strip_digits _ (decimal_ascii k n)).
  destruct (decimal_cons k n) as (c & t & E & Hc).
  rewrite E.
  assert (Hm : (c =? ord "-")%N = false /\ (c =? ord "+")%N = false).
  { unfold ascii_digit in Hc. apply andb_true_iff in Hc as [Hlo Hhi].
    apply N.leb_le in Hlo. cbn [ord N_of_ascii].
    split; apply N.eqb_neq; cbn; lia. }
  destruct Hm as [-> ->]. rewrite <- E, digits_value_decimal. reflexivity.
Qed.

(** [int] reads a decimal numeral back, leading zeros or not, as long as
    it is within the limit, and refuses it beyond. *)
Lemma py_int_decimal k n :
  within_limit (decimal k n) -> py_int (decimal k n) = Some (Z.of_N n).
Proof.
  intros Hw. unfold py_int. cbv zeta.
  rewrite (map_to_ascii_digits _ (decimal_ascii k n)).
  rewrite int_of_ascii_decimal, (within_limit_ok _ Hw). reflexivity.
Qed.

Lemma py_int_decimal_beyond k n :
  (0 < int_max_str_digits)%N ->
  (int_max_str_digits < N.of_nat (length (decimal k n)))%N ->
  py_int (decimal k n) = None.
Proof.
  intros H0 Hlt. unfold py_int. cbv zeta.
  rewrite (map_to_ascii_digits _ (decimal_ascii k n)).
  rewrite int_of_ascii_decimal,
    (beyond_limit_over _ (decimal_ascii k n) H0 Hlt).
  reflexivity.
Qed.

Lemma py_int_str_N n :
  within_limit (str_N n) -> py_int (str_N n) = Some (Z.of_N n).
Proof. exact (py_int_decimal 0 n). Qed.

End NumeralFacts.

(** ** Time formatting *)

Lemma fmt_02d_two_digits v : 0 <= v < 100 -> fmt_02d v = two_digits v.
Proof.
  intros Hv.
  assert (Hall : bool_decide (Forall
            (fun k => fmt_02d (Z.of_nat k) = two_digits (Z.of_nat k))
            (seq 0 100)) = true) by (vm_compute; reflexivity).
  apply bool_decide_eq_true_1 in Hall.
  rewrite Forall_forall in Hall.
  specialize (Hall (Z.to_nat v)).
  rewrite Z2Nat.id in Hall by lia.
  apply Hall, elem_of_seq. lia.
Qed.

Lemma fmt_02d_decimal v :
  0 <= v ->
  exists zeros, fmt_02d v = decimal zeros (Z.to_N v)
                /\ (2 <= length (decimal zeros (Z.to_N v)))%nat.
Proof.
  intros Hv. exists (2 - length (str_N (Z.to_N v)))%nat.
  unfold fmt_02d, decimal.
  destruct (v <? 0) eqn:E; [apply Z.ltb_lt in E; lia |].
  split; [reflexivity |].
  rewrite length_app, length_replicate. lia.
Qed.



(** ** Duration parsing *)

Section DurationFacts.
Context `{UD : UnicodeData}.

Lemma split_no_sep sep a :
  Forall (fun c => c <> sep) a -> split sep a = [a].
Proof.
  induction 1 as [| c t Hc Ht IH]; [reflexivity |].
  cbn [split]. apply N.eqb_neq in Hc. rewrite Hc, IH. reflexivity.
Qed.

Lemma split_app sep a b :
  Forall (fun c => c <> sep) a ->
  split sep (a ++ sep :: b) = a :: split sep b.
Proof.
  induction 1 as [| c t Hc Ht IH]; cbn [split app].
  - rewrite N.eqb_refl. reflexivity.
  - apply N.eqb_neq in Hc. rewrite Hc, IH. reflexivity.
Qed.

Lemma decimal_no_colon k n : Forall (fun c => c <> ord ":") (decimal k n).
Proof.
  eapply Forall_impl; [apply decimal_ascii |].
  intros c Hc ->. discriminate Hc.
Qed.

Lemma parse_duration_total str :
  parse_duration str = ValueError duration_error
  \/ exists v, parse_duration str = Ok v.
Proof.
  unfold parse_duration.
  match goal with |- context [match ?b with Some _ => _ | None => _ end] =>
    destruct b end; eauto.
Qed.

Lemma parse_duration_one p0 str :
  split (ord ":") str = [p0] ->
  parse_duration str
  = match py_int p0 with Some v => Ok v | None => ValueError duration_error end.
Proof. intros E. unfold parse_duration. rewrite E. reflexivity. Qed.

Lemma parse_duration_two p0 p1 str :
  split (ord ":") str = [p0; p1] ->
  parse_duration str
  = match py_int p0, py_int p1 with
    | Some m, Some s => Ok (m * 60 + s)
    | _, _ => ValueError duration_error
    end.
Proof.
  intros E. unfold parse_duration. rewrite E.
  destruct (py_int p0), (py_int p1); reflexivity.
Qed.

Lemma parse_duration_three p0 p1 p2 str :
  split (ord ":") str = [p0; p1; p2] ->
  parse_duration str
  = match py_int p0, py_int p1, py_int p2 with
    | Some h, Some m, Some s => Ok (h * 3600 + m * 60 + s)
    | _, _, _ => ValueError duration_error
    end.
Proof.
  intros E. unfold parse_duration. rewrite E.
  destruct (py_int p0), (py_int p1), (py_int p2); reflexivity.
Qed.

Lemma parse_duration_many p0 p1 p2 p3 ps str :
  split (ord ":") str = p0 :: p1 :: p2 :: p3 :: ps ->
  parse_duration str = ValueError duration_error.
Proof. intros E. unfold parse_duration. rewrite E. reflexivity. Qed.

Lemma split_nonempty sep s : split sep s <> [].
Proof.
  destruct s as [| c t]; [discriminate |]. cbn [split].
  destruct (c =? sep)%N; [discriminate |].
  destruct (split sep t); discriminate.
Qed.

End DurationFacts.

(** C6 (amended). [parse_duration] returns a value exactly when the
    text splits on [':'] into one, two or three parts that [int] accepts,
    and the value is [S], [M*60+S] or [H*3600+M*60+S]; the three shapes
    written with decimal numerals of naturals (leading zeros allowed)
    read back to these values as long as each numeral is within the
    interpreter's limit on digits, which every numeral of at most 640
    characters is, and a numeral beyond the limit is refused.  Every
    other text raises the validation error: a part that [int] rejects,
    more than three parts, the empty text. *)
Theorem parse_duration_exact `{UD : UnicodeData} (str : pystr) :
  (forall v, parse_duration str = Ok v <->
     (exists p0, split (ord ":") str = [p0] /\ py_int p0 = Some v)
     \/ (exists p0 p1 m s, split (ord ":") str = [p0; p1]
           /\ py_int p0 = Some m /\ py_int p1 = Some s /\ v = m * 60 + s)
     \/ (exists p0 p1 p2 h m s, split (ord ":") str = [p0; p1; p2]
           /\ py_int p0 = Some h /\ py_int p1 = Some m /\ py_int p2 = Some s
           /\ v = h * 3600 + m * 60 + s))
  /\ (parse_duration str = ValueError duration_error
      \/ exists v, parse_duration str = Ok v)
  /\ (forall (h m s : N) (zh zm zs : nat),
        (within_limit (decimal zs s) ->
         parse_duration (decimal zs s) = Ok (Z.of_N s))
        /\ (within_limit (decimal zm m) -> within_limit (decimal zs s) ->
            parse_duration (decimal zm m ++ u":" ++ decimal zs s)
            = Ok (Z.of_N m * 60 + Z.of_N s))
        /\ (within_limit (decimal zh h) -> within_limit (decimal zm m) ->
            within_limit (decimal zs s) ->
            parse_duration (decimal zh h ++ u":" ++ decimal zm m ++ u":"
                            ++ decimal zs s)
            = Ok (Z.of_N h * 3600 + Z.of_N m * 60 + Z.of_N s)))
  /\ (forall text, (length text <= 640)%nat -> within_limit text)
  /\ (forall (zs : nat) (s : N),
        (0 < int_max_str_digits)%N ->
        (int_max_str_digits < N.of_nat (length (decimal zs s)))%N ->
        parse_duration (decimal zs s) = ValueError duration_error)
  /\ ((exists p, p ∈ split (ord ":") str /\ py_int p = None) ->
      parse_duration str = ValueError duration_error)
  /\ ((3 < length (split (ord ":") str))%nat ->
      parse_duration str = ValueError duration_error)
  /\ parse_duration (u"") = ValueError duration_error
  /\ parse_duration (u"abc") = ValueError duration_error
  /\ parse_duration (u"12:xx") = ValueError duration_error
  /\ parse_duration (u"1:2:3:4") = ValueError duration_error.
Proof.
  split; [| split; [apply parse_duration_total |]].
  { intros v.
    pose proof (split_nonempty (ord ":") str) as Hne.
    destruct (split (ord ":") str)
      as [| p0 [| p1 [| p2 [| p3 ps]]]] eqn:E; [contradiction | | | |].
    - rewrite (parse_duration_one p0 str E). split.
      + destruct (py_int p0) eqn:E0; [| discriminate].
        intros [= ->]. left. eauto.
      + intros [(q & [= <-] & ->) | [(? & ? & ? & ? & [=] & _)
                                     | (? & ? & ? & ? & ? & ? & [=] & _)]].
        reflexivity.
    - rewrite (parse_duration_two p0 p1 str E). split.
      + destruct (py_int p0) eqn:E0, (py_int p1) eqn:E1; try discriminate.
        intros [= <-]. right. left. do 4 eexists. eauto.
      + intros [(? & [=] & _) | [(? & ? & m & s & [= <- <-] & -> & -> & ->)
                                 | (? & ? & ? & ? & ? & ? & [=] & _)]].
        reflexivity.
    - rewrite (parse_duration_three p0 p1 p2 str E). split.
      + destruct (py_int p0) eqn:E0, (py_int p1) eqn:E1, (py_int p2) eqn:E2;
          try discriminate.
        intros [= <-]. right. right. do 6 eexists. eauto 6.
      + intros [(? & [=] & _) | [(? & ? & ? & ? & [=] & _)
          | (? & ? & ? & h & m & s & [= <- <- <-] & -> & -> & -> & ->)]].
        reflexivity.
    - rewrite (parse_duration_many p0 p1 p2 p3 ps str E). split.
      + discriminate.
      + intros [(? & [=] & _) | [(? & ? & ? & ? & [=] & _)
                                 | (? & ? & ? & ? & ? & ? & [=] & _)]]. }
  split.
  { intros h m s zh zm zs.
    pose proof (decimal_no_colon zh h) as Hh.
    pose proof (decimal_no_colon zm m) as Hm.
    pose proof (decimal_no_colon zs s) as Hs.
    split; [| split].
    - intros Ws.
      rewrite (parse_duration_one _ _ (split_no_sep _ _ Hs)).
      rewrite (py_int_decimal _ _ Ws). reflexivity.
    - intros Wm Ws.
      erewrite parse_duration_two
        by (change (u":" ++ decimal zs s) with (ord ":" :: decimal zs s);
            rewrite (split_app _ _ _ Hm), (split_no_sep _ _ Hs);
            reflexivity).
      rewrite (py_int_decimal _ _ Wm), (py_int_decimal _ _ Ws). reflexivity.
    - intros Wh Wm Ws.
      erewrite parse_duration_three
        by (change (u":" ++ decimal zm m ++ u":" ++ decimal zs s)
              with (ord ":" :: decimal zm m ++ ord ":" :: decimal zs s);
            rewrite (split_app _ _ _ Hh), (split_app _ _ _ Hm),
              (split_no_sep _ _ Hs); reflexivity).
      rewrite (py_int_decimal _ _ Wh), (py_int_decimal _ _ Wm),
        (py_int_decimal _ _ Ws). reflexivity. }
  split; [intros text Ht; apply short_within_limit; exact Ht |].
  split.
  { intros zs s H0 Hlt.
    rewrite (parse_duration_one _ _
               (split_no_sep _ _ (decimal_no_colon zs s))).
    rewrite (py_int_decimal_beyond _ _ H0 Hlt). reflexivity. }
  split.
  { intros (p & Hin & Hp).
    pose proof (split_nonempty (ord ":") str) as Hne.
    destruct (split (ord ":") str)
      as [| p0 [| p1 [| p2 [| p3 ps]]]] eqn:E; [contradiction | | | |].
    - rewrite (parse_duration_one p0 str E).
      apply list_elem_of_singleton in Hin as ->. rewrite Hp. reflexivity.
    - rewrite (parse_duration_two p0 p1 str E).
      repeat (apply elem_of_cons in Hin as [-> | Hin]);
        [| | apply elem_of_nil in Hin; contradiction];
        rewrite Hp; [| destruct (py_int p0)]; reflexivity.
    - rewrite (parse_duration_three p0 p1 p2 str E).
      repeat (apply elem_of_cons in Hin as [-> | Hin]);
        [| | | apply elem_of_nil in Hin; contradiction];
        rewrite Hp; repeat (match goal with
                            | |- context [match py_int ?q with _ => _ end] =>
                              destruct (py_int q)
                            end); reflexivity.
    - apply (parse_duration_many p0 p1 p2 p3 ps str E). }
  split.
  { intros Hlen.
    destruct (split (ord ":") str)
      as [| p0 [| p1 [| p2 [| p3 ps]]]] eqn:E; cbn in Hlen; try lia.
    apply (parse_duration_many p0 p1 p2 p3 ps str E). }
  split; [reflexivity |].
  split; [reflexivity |].
  split; [| reflexivity].
  rewrite (parse_duration_two (u"12") (u"xx") (u"12:xx") eq_refl).
  rewrite (py_int_short (u"12")) by (cbn; lia).
  reflexivity.
Qed.

(** C6, the claim as written.  On an interpreter with the default limit
    of 4300 digits the numeral of [10 ^ 4300], and the numeral of 1
    written with 4300 leading zeros, are non-negative integer parts that
    do not parse back: the validation error is raised. *)
Lemma parse_duration_long_numeral_refused :
  @parse_duration ascii_only (str_N (10 ^ 4300)) = ValueError duration_error
  /\ @parse_duration ascii_only (decimal 4300 1) = ValueError duration_error.
Proof. split; vm_compute; reflexivity. Qed.

(** ** The countdown loop *)

Module CountdownFacts.
Import Countdown.

Section Loop.
Variables (config : ClockConfig) (total_seconds : Z) (label color : pystr).

Lemma progress_some remaining :
  exists p, progress total_seconds remaining = Some p
    /\ (total_seconds <= 0 -> p = 1%Q)
    /\ (0 < total_seconds ->
        p = (inject_Z (total_seconds - remaining) / inject_Z total_seconds)%Q
        /\ truediv (total_seconds - remaining) total_seconds = Some p).
Proof.
  unfold progress, truediv.
  destruct (0 <? total_seconds) eqn:E.
  - apply Z.ltb_lt in E.
    destruct (total_seconds =? 0) eqn:E0; [apply Z.eqb_eq in E0; lia |].
    eexists. split; [reflexivity |]. split; [lia | auto].
  - apply Z.ltb_ge in E. exists 1%Q. split; [reflexivity |].
    split; [auto | lia].
Qed.

Lemma loop_exit remaining paused first ins :
  remaining < 0 ->
  loop config total_seconds label color remaining paused first ins
  = mkRun [] [] (Returned false) ins.
Proof.
  intros Hr. apply Z.ltb_lt in Hr.
  destruct ins; cbn [loop]; rewrite Hr; reflexivity.
Qed.

Lemma loop_starved remaining paused first :
  0 <= remaining ->
  loop config total_seconds label color remaining paused first []
  = mkRun [] [] Pending [].
Proof.
  intros Hr. apply Z.ltb_ge in Hr. cbn [loop]. rewrite Hr. reflexivity.
Qed.

Lemma loop_ctrlc remaining paused first ins :
  0 <= remaining ->
  loop config total_seconds label color remaining paused first (CtrlC :: ins)
  = mkRun [] [Print []] (Returned true) ins.
Proof.
  intros Hr. apply Z.ltb_ge in Hr. cbn [loop]. rewrite Hr. reflexivity.
Qed.

(** One iteration on a tick: the frame it renders and the state the loop
    goes on with. *)
Lemma loop_tick remaining paused first tk ins :
  0 <= remaining ->
  exists p,
    progress total_seconds remaining = Some p /\
    let paused' := if pressed key_q (key tk) then negb paused else paused in
    loop config total_seconds label color remaining paused first
      (Tick tk :: ins)
    = cons_frame
        {| shown := remaining; shown_paused := paused'; fraction := p;
           before := if negb first
                     then [Sleep 1; MoveUp (lines_to_move config)] else [];
           drawn := draw_head config label color remaining paused' (cols tk)
                    ++ draw_bar config color p (cols tk) |}
        (loop config total_seconds label color
           (if negb paused' then remaining - 1 else remaining)
           paused' false ins).
Proof.
  intros Hr. apply Z.ltb_ge in Hr.
  destruct (progress_some remaining) as (p & Hp & _).
  exists p. split; [exact Hp |].
  cbn [loop]. rewrite Hr, Hp. reflexivity.
Qed.

(** The loop never raises: the division is guarded. *)
Lemma loop_never_raises ins : forall remaining paused first,
  result (loop config total_seconds label color remaining paused first ins)
  <> Raised.
Proof.
  induction ins as [| [tk |] ins IH]; intros remaining paused first;
    destruct (Z.lt_ge_cases remaining 0) as [Hr | Hr];
    rewrite ?loop_exit, ?loop_starved, ?loop_ctrlc by assumption;
    try discriminate.
  destruct (loop_tick remaining paused first tk ins Hr) as (p & _ & ->).
  cbn [cons_frame result]. apply IH.
Qed.

(** What holds of the frames whatever the keys are. *)
Lemma loop_invariant ins : forall remaining paused first,
  let r := loop config total_seconds label color remaining paused first ins in
  Forall (fun fr => 0 <= shown fr <= remaining) (frames r)
  /\ (forall fr, head (frames r) = Some fr -> shown fr = remaining)
  /\ ticks_down (frames r)
  /\ (result r = Returned false ->
      match last (frames r) with
      | Some fr => shown fr = 0 /\ shown_paused fr = false
      | None => remaining < 0
      end).
Proof.
  induction ins as [| [tk |] ins IH]; intros remaining paused first;
    cbn zeta;
    destruct (Z.lt_ge_cases remaining 0) as [Hr | Hr];
    rewrite ?loop_exit, ?loop_starved, ?loop_ctrlc by assumption;
    cbn [frames result head last ticks_down];
    try (repeat split; solve [constructor | discriminate | auto]).
  destruct (loop_tick remaining paused first tk ins Hr) as (p & _ & ->).
  set (paused' := if pressed key_q (key tk) then negb paused else paused).
  set (r' := (if negb paused' then remaining - 1 else remaining)).
  specialize (IH r' paused' false). cbn zeta in IH.
  destruct IH as (Hall & Hhd & Hdown & Hlast).
  cbn [cons_frame frames result].
  assert (Hr' : r' <= remaining) by (subst r'; destruct paused'; cbn; lia).
  repeat split.
  - constructor; [cbn; lia |].
    eapply Forall_impl; [exact Hall |]. cbn. intros; lia.
  - intros fr [= <-]. reflexivity.
  - destruct (frames (loop config total_seconds label color r' paused'
                        false ins)) as [| f2 t] eqn:E;
      cbn [ticks_down]; [exact I |].
    split; [| exact Hdown].
    cbn [shown shown_paused]. rewrite (Hhd f2 eq_refl).
    subst r'. destruct paused'; reflexivity.
  - intros Hres. specialize (Hlast Hres).
    destruct (frames (loop config total_seconds label color r' paused'
                        false ins)) as [| f2 t] eqn:E.
    + cbn [last shown shown_paused]. cbn [last] in Hlast.
      subst r'. destruct paused'; cbn in Hlast |- *; split; (lia || reflexivity).
    + rewrite last_cons. destruct (last (f2 :: t)) eqn:E2; [exact Hlast |].
      apply last_None in E2. discriminate.
Qed.


(** Every frame draws the value and the fraction it records. *)
Lemma loop_frames_drawn ins : forall remaining paused first,
  Forall (fun fr => exists w,
            drawn fr = draw_head config label color (shown fr)
                         (shown_paused fr) w
                       ++ draw_bar config color (fraction fr) w)
    (frames (loop config total_seconds label color remaining paused first
               ins)).
Proof.
  induction ins as [| [tk |] ins IH]; intros remaining paused first;
    destruct (Z.lt_ge_cases remaining 0) as [Hr | Hr];
    rewrite ?loop_exit, ?loop_starved, ?loop_ctrlc by assumption;
    try (cbn [frames]; constructor).
  destruct (loop_tick remaining paused first tk ins Hr) as (p & _ & ->).
  cbn [cons_frame frames]. constructor; [| apply IH].
  exists (cols tk). reflexivity.
Qed.

(** One tick per frame: the pause flag a frame shows is the flag after
    the keys read so far, and the frame is drawn at the width of its own
    tick. *)
Lemma loop_keys ins : forall remaining paused first,
  let r := loop config total_seconds label color remaining paused first ins in
  exists tks,
    ins = consumed tks r ++ rest r
    /\ List.map shown_paused (frames r) = toggles paused (List.map key tks)
    /\ Forall2 (fun fr tk =>
                  drawn fr
                  = draw_head config label color (shown fr) (shown_paused fr)
                      (cols tk)
                    ++ draw_bar config color (fraction fr) (cols tk))
         (frames r) tks.
Proof.
  induction ins as [| [tk |] ins IH]; intros remaining paused first;
    cbn zeta;
    destruct (Z.lt_ge_cases remaining 0) as [Hr | Hr];
    rewrite ?loop_exit, ?loop_starved, ?loop_ctrlc by assumption;
    try (exists []; unfold consumed;
         cbn [frames result rest List.map app toggles];
         repeat split; solve [auto | constructor]).
  destruct (loop_tick remaining paused first tk ins Hr) as (p & _ & ->).
  set (paused' := if pressed key_q (key tk) then negb paused else paused).
  set (r' := if negb paused' then remaining - 1 else remaining).
  destruct (IH r' paused' false) as (tks & Hins & Hflags & Hdrawn).
  cbn zeta in Hins, Hflags, Hdrawn.
  exists (tk :: tks). unfold consumed in *.
  cbn [cons_frame frames result rest List.map app toggles shown_paused].
  fold paused'. split; [rewrite Hins at 1; reflexivity |].
  split; [rewrite Hflags; reflexivity |].
  constructor; [reflexivity | exact Hdrawn].
Qed.

(** Ticks without the pause key, as long as the value lasts: one frame
    each, the value going down by one. *)
Lemma loop_unpaused tks : forall remaining first more,
  Forall no_pause tks ->
  Z.of_nat (length tks) <= remaining + 1 ->
  exists frs,
    loop config total_seconds label color remaining false first
      (List.map Tick tks ++ more)
    = prepend_frames frs
        (loop config total_seconds label color
           (remaining - Z.of_nat (length tks)) false
           (match tks with [] => first | _ => false end) more)
    /\ List.map shown frs = descending remaining (length tks)
    /\ Forall (fun fr => shown_paused fr = false
                 /\ progress total_seconds (shown fr) = Some (fraction fr))
         frs
    /\ List.map before frs
       = match tks with
         | [] => []
         | _ => (if negb first then countdown_pause config else [])
                :: replicate (length tks - 1) (countdown_pause config)
         end.
Proof.
  induction tks as [| tk tks IH]; intros remaining first more Hq Hlen.
  - exists []. cbn [length List.map app descending replicate].
    replace (remaining - Z.of_nat 0) with remaining by lia.
    repeat split; try constructor.
    unfold prepend_frames.
    destruct (loop config total_seconds label color remaining false first
                more); reflexivity.
  - inversion Hq as [| ? ? Hk Hq']; subst.
    cbn [length] in Hlen. rewrite Nat2Z.inj_succ in Hlen.
    assert (Hr : 0 <= remaining) by lia.
    cbn [List.map app].
    destruct (loop_tick remaining false first tk (List.map Tick tks ++ more)
                Hr) as (p & Hp & ->).
    unfold no_pause in Hk. rewrite Hk. cbn [negb].
    destruct (IH (remaining - 1) false more Hq' ltac:(lia))
      as (frs & -> & Hshown & Hall & Hbefore).
    eexists (_ :: frs). repeat split.
    + unfold cons_frame, prepend_frames. cbn [frames tail_events result rest].
      replace (remaining - 1 - Z.of_nat (length tks))
        with (remaining - Z.of_nat (length (tk :: tks)))
        by (cbn [length]; lia).
      destruct tks; reflexivity.
    + cbn [List.map shown length descending]. rewrite Hshown. reflexivity.
    + constructor; [cbn; auto | exact Hall].
    + cbn [List.map before length]. rewrite Hbefore.
      replace (S (length tks) - 1)%nat with (length tks) by lia.
      destruct tks as [| tk' tks']; [reflexivity |].
      cbn [length negb]. replace (S (length tks') - 1)%nat
        with (length tks') by lia.
      reflexivity.
Qed.

End Loop.

(** C10. At every frame the countdown renders, [0 <= remaining <=
    total_seconds], and what is drawn is that value; from one frame to
    the next the value drops by exactly one when the earlier frame was not
    paused and is unchanged when it was; and the loop returns as completed
    only from a frame that showed 0 unpaused (or without any frame when
    the total is already negative), that is when [remaining] first goes
    below 0. *)
Theorem countdown_remaining_bounds (config : ClockConfig)
    (total_seconds : Z) (label color : pystr) (ins : list (input tick)) :
  let r := countdown_timer total_seconds label color config ins in
  Forall (fun fr => 0 <= shown fr <= total_seconds
            /\ exists w,
               drawn fr = draw_head config label color (shown fr)
                            (shown_paused fr) w
                          ++ draw_bar config color (fraction fr) w)
    (frames r)
  /\ (forall fr, head (frames r) = Some fr -> shown fr = total_seconds)
  /\ ticks_down (frames r)
  /\ (result r = Returned false ->
      match last (frames r) with
      | Some fr => shown fr = 0 /\ shown_paused fr = false
      | None => total_seconds < 0
      end).
Proof.
  cbn zeta. unfold countdown_timer.
  destruct (loop_invariant config total_seconds label color ins
              total_seconds false true) as (Hall & Hhd & Hdown & Hlast).
  pose proof (loop_frames_drawn config total_seconds label color ins
                total_seconds false true) as Hdrawn.
  repeat split; try assumption.
  rewrite Forall_forall in Hall, Hdrawn |- *.
  intros fr Hin. split; [apply Hall | apply Hdrawn]; exact Hin.
Qed.

Section Unpaused.
Variables (config : ClockConfig) (label color : pystr).

Lemma toggles_no_pause tks :
  Forall no_pause tks ->
  toggles false (List.map key tks) = replicate (length tks) false.
Proof.
  induction 1 as [| tk tks Hk Hq IH]; [reflexivity |].
  cbn [List.map toggles length replicate]. unfold no_pause in Hk.
  rewrite Hk, IH. reflexivity.
Qed.

Lemma map_Tick_inj (a b : list tick) :
  List.map Tick a = List.map Tick b -> a = b.
Proof.
  revert b. induction a as [| x a IH]; intros [| y b] H;
    try discriminate; [reflexivity |].
  cbn [List.map] in H. injection H as -> H. f_equal. apply IH. exact H.
Qed.

(** When the ticks a run has read carry no pause key, every frame is
    the running frame of the value it shows, at the width of its tick, and
    nothing is printed between the frames. *)
Lemma frames_drawn_running total ins tks :
  let r := countdown_timer total label color config ins in
  ins = consumed tks r ++ rest r ->
  Forall no_pause tks ->
  Forall2 (fun fr tk =>
             drawn fr = running_frame config label color (shown fr)
                          (fraction fr) (cols tk))
    (frames r) tks
  /\ events_of r
     = flat_map (fun fr => before fr ++ drawn fr) (frames r)
       ++ tail_events r.
Proof.
  cbn zeta. intros Hins Hq. split; [| reflexivity].
  unfold countdown_timer in *.
  destruct (loop_keys config total label color ins total false true)
    as (tks' & Hins' & Hflags & Hdrawn).
  cbn zeta in Hins', Hflags, Hdrawn.
  assert (tks' = tks).
  { rewrite Hins in Hins' at 1. apply app_inv_tail in Hins'.
    unfold consumed in Hins'. apply app_inv_tail in Hins'.
    symmetry. apply map_Tick_inj. exact Hins'. }
  subst tks'. rewrite (toggles_no_pause tks Hq) in Hflags.
  clear Hins Hins'.
  revert Hflags.
  induction Hdrawn as [| fr tk frs tks' Hd Hrest IH]; intros Hflags;
    [constructor |].
  cbn [List.map length replicate] in Hflags. injection Hflags as Hp Hflags.
  inversion Hq; subst.
  constructor; [| apply IH; assumption].
  rewrite Hd, Hp. unfold running_frame, draw_head, draw_bar.
  rewrite <- app_assoc. reflexivity.
Qed.

(** A countdown from [T >= 0] fed [T + 1] ticks without the pause key. *)
Lemma countdown_unpaused_run T tks more :
  0 <= T ->
  length tks = S (Z.to_nat T) ->
  Forall no_pause tks ->
  let r := countdown_timer T label color config (List.map Tick tks ++ more) in
  List.map shown (frames r) = descending T (S (Z.to_nat T))
  /\ Forall (fun fr => shown_paused fr = false
               /\ progress T (shown fr) = Some (fraction fr)) (frames r)
  /\ List.map before (frames r)
     = [] :: replicate (Z.to_nat T) (countdown_pause config)
  /\ tail_events r = []
  /\ result r = Returned false
  /\ rest r = more.
Proof.
  intros HT Hlen Hq. cbn zeta. unfold countdown_timer.
  destruct (loop_unpaused config T label color tks T true more Hq
              ltac:(lia)) as (frs & -> & Hshown & Hall & Hbefore).
  rewrite loop_exit by lia.
  unfold prepend_frames. cbn [frames tail_events result rest].
  rewrite app_nil_r, Hshown, Hbefore, Hlen.
  destruct tks as [| tk tks']; [discriminate |].
  cbn [negb]. replace (S (Z.to_nat T) - 1)%nat with (Z.to_nat T) by lia.
  repeat split; first [reflexivity | assumption].
Qed.


End Unpaused.




(** C8. With [total_seconds = 0] the fraction is 1 and no division takes
    place: the division [truediv] fails on a zero divisor, and [progress]
    reaches it only when [total_seconds] is positive, so it always
    yields a value and the loop never raises.  A countdown from 0 that
    gets one tick without the pause key renders the single frame [0] and
    returns as completed. *)
Theorem countdown_zero_total_safe :
  (forall remaining, progress 0 remaining = Some 1%Q)
  /\ (forall a, truediv a 0 = None)
  /\ (forall total_seconds remaining,
        exists p, progress total_seconds remaining = Some p
          /\ (total_seconds <= 0 -> p = 1%Q)
          /\ (0 < total_seconds ->
              truediv (total_seconds - remaining) total_seconds = Some p))
  /\ (forall config total_seconds label color ins,
        result (countdown_timer total_seconds label color config ins)
        <> Raised)
  /\ (forall config label color tk more,
        no_pause tk ->
        let r := countdown_timer 0 label color config (Tick tk :: more) in
        List.map shown (frames r) = [0]
        /\ List.map fraction (frames r) = [1%Q]
        /\ result r = Returned false
        /\ rest r = more).
Proof.
  split; [reflexivity |].
  split; [reflexivity |].
  split.
  { intros total_seconds remaining.
    destruct (progress_some total_seconds remaining) as (p & Hp & H0 & Hpos).
    exists p. repeat split; [exact Hp | exact H0 |].
    intros H. apply Hpos. exact H. }
  split.
  { intros. apply loop_never_raises. }
  intros config label color tk more Hq. cbn zeta.
  destruct (countdown_unpaused_run config label color 0 [tk] more
              ltac:(lia) eq_refl ltac:(repeat constructor; exact Hq))
    as (Hshown & Hall & _ & _ & Hres & Hrest).
  cbn zeta in *. cbn [List.map app] in *.
  repeat split; try assumption.
  destruct (frames (countdown_timer 0 label color config (Tick tk :: more)))
    as [| fr [| ? ?]]; try discriminate.
  inversion Hall as [| ? ? [_ Hp] _]; subst.
  cbn in Hp. injection Hp as Hp. cbn [List.map]. rewrite <- Hp. reflexivity.
Qed.

End CountdownFacts.

(** ** The stopwatch *)

Module StopwatchFacts.
Import Stopwatch.

Lemma int_of_Q_nonneg q : (0 <= q)%Q -> int_of_Q q = Qfloor q.
Proof.
  destruct q as [n d]. unfold Qle, int_of_Q, Qfloor. cbn [Qnum Qden].
  intros Hn. apply Z.quot_div_nonneg; lia.
Qed.



(** One iteration keeps the invariant and, when it leaves the stopwatch
    running, sets [elapsed] to the floor of the time since the start. *)
Lemma advance_inv st tk t :
  stopwatch_inv st t ->
  (t <= t_key tk)%Q -> (t_key tk <= t_now tk)%Q ->
  stopwatch_inv (advance st tk) (t_now tk)
  /\ (paused (advance st tk) = false ->
      elapsed (advance st tk)
      = Qfloor (t_now tk - start_time (advance st tk))).
Proof.
  intros [Hs Hp] H1 H2. unfold advance, stopwatch_inv.
  destruct (pressed key_q (key tk)); [| destruct (pressed key_r (key tk))];
    destruct (paused st) eqn:Ep;
    cbn [negb paused start_time elapsed pause_start]; rewrite ?Ep;
    cbn [negb paused start_time elapsed pause_start];
    try (destruct (Hp eq_refl) as [Hp1 Hp2]);
    (split; [split; [lra | intros; try discriminate; split; lra] |]);
    intros; try discriminate; apply int_of_Q_nonneg; lra.
Qed.


Lemma init_inv t0 : stopwatch_inv (init t0) t0.
Proof. split; [cbn; lra | discriminate]. Qed.

(** The state a frame shows is the advanced state. *)
Lemma step_shows config st tk :
  let st' := advance st tk in
  let '(st'', fr) := step config st tk in
  shown fr = st''
  /\ start_time st'' = start_time st' /\ elapsed st'' = elapsed st'
  /\ paused st'' = paused st' /\ pause_start st'' = pause_start st'
  /\ drawn fr = draw config st'' (cols tk).
Proof. cbn. repeat split. Qed.










End StopwatchFacts.

(** ** Pomodoro sessions *)

Module PomodoroFacts.

Section Session.
Variables (work_minutes break_minutes : Z) (config : ClockConfig).

(** The two countdowns of the session numbered [session] on the input
    [ins]: Work reads [ins], Break reads what Work left. *)
Let work_run (session : Z) (ins : list (input Countdown.tick)) :=
  Countdown.countdown_timer (work_minutes * 60)
    (Pomodoro.work_label session) Colors.RED config ins.

Let break_run (session : Z) (ins : list (input Countdown.tick)) :=
  Countdown.countdown_timer (break_minutes * 60)
    (Pomodoro.break_label session) Colors.GREEN config
    (Countdown.rest (work_run session ins)).

(** What a session prints up to the end of its Break countdown. *)
Let through_break (session : Z) (ins : list (input Countdown.tick)) :=
  [ClearScreen] ++ Countdown.events_of (work_run session ins)
  ++ Pomodoro.ring config ++ [Sleep 2] ++ [ClearScreen]
  ++ Countdown.events_of (break_run session ins).

Lemma interrupted_in_work fuel session ins :
  Countdown.result (work_run session ins) = Returned true ->
  Pomodoro.loop (S fuel) work_minutes break_minutes config session ins
  = ([ClearScreen] ++ Countdown.events_of (work_run session ins),
     Returned tt).
Proof.
  intros Hw. cbn [Pomodoro.loop]. fold (work_run session ins).
  rewrite Hw. reflexivity.
Qed.

Lemma interrupted_in_break fuel session ins :
  Countdown.result (work_run session ins) = Returned false ->
  Countdown.result (break_run session ins) = Returned true ->
  Pomodoro.loop (S fuel) work_minutes break_minutes config session ins
  = (through_break session ins, Returned tt).
Proof.
  intros Hw Hb. cbn [Pomodoro.loop]. fold (work_run session ins).
  rewrite Hw. fold (break_run session ins). rewrite Hb. reflexivity.
Qed.

Lemma session_completed fuel session ins :
  Countdown.result (work_run session ins) = Returned false ->
  Countdown.result (break_run session ins) = Returned false ->
  let next := Pomodoro.loop fuel work_minutes break_minutes config
                (session + 1) (Countdown.rest (break_run session ins)) in
  Pomodoro.loop (S fuel) work_minutes break_minutes config session ins
  = (through_break session ins ++ Pomodoro.ring config ++ [Sleep 2]
     ++ fst next, snd next).
Proof.
  intros Hw Hb. cbn zeta. cbn [Pomodoro.loop]. fold (work_run session ins).
  rewrite Hw. fold (break_run session ins). rewrite Hb.
  destruct (Pomodoro.loop fuel work_minutes break_minutes config
              (session + 1) (Countdown.rest (break_run session ins))).
  unfold through_break. rewrite <- !app_assoc. reflexivity.
Qed.

(** Whatever happens next, an iteration opens on a cleared screen with
    the Work countdown of its session. *)
Lemma session_starts_with_work fuel session ins :
  exists tr,
    fst (Pomodoro.loop (S fuel) work_minutes break_minutes config session ins)
    = [ClearScreen] ++ Countdown.events_of (work_run session ins) ++ tr.
Proof.
  cbn [Pomodoro.loop]. fold (work_run session ins).
  destruct (Countdown.result (work_run session ins)) as [[|] | |];
    try (exists []; cbn [fst]; rewrite app_nil_r; reflexivity).
  fold (break_run session ins).
  destruct (Countdown.result (break_run session ins)) as [[|] | |];
    try (eexists; cbn [fst]; rewrite <- !app_assoc; reflexivity).
  destruct (Pomodoro.loop fuel work_minutes break_minutes config
              (session + 1) (Countdown.rest (break_run session ins))).
  eexists. cbn [fst]. rewrite <- !app_assoc. reflexivity.
Qed.

(** Ticks without the pause key carry both countdowns to completion. *)
Lemma both_complete session tw tb more :
  0 <= work_minutes -> 0 <= break_minutes ->
  length tw = S (Z.to_nat (work_minutes * 60)) ->
  length tb = S (Z.to_nat (break_minutes * 60)) ->
  Forall no_pause tw -> Forall no_pause tb ->
  let ins := List.map Tick tw ++ List.map Tick tb ++ more in
  Countdown.result (work_run session ins) = Returned false
  /\ Countdown.result (break_run session ins) = Returned false
  /\ Countdown.rest (break_run session ins) = more.
Proof.
  intros Hw Hb Hlw Hlb Hqw Hqb. cbn zeta. unfold break_run, work_run.
  destruct (CountdownFacts.countdown_unpaused_run config
              (Pomodoro.work_label session) Colors.RED (work_minutes * 60)
              tw (List.map Tick tb ++ more) ltac:(lia) Hlw Hqw)
    as (_ & _ & _ & _ & Hres & Hrest).
  cbn zeta in Hres, Hrest. rewrite Hres, Hrest.
  destruct (CountdownFacts.countdown_unpaused_run config
              (Pomodoro.break_label session) Colors.GREEN
              (break_minutes * 60) tb more ltac:(lia) Hlb Hqb)
    as (_ & _ & _ & _ & Hres' & Hrest').
  auto.
Qed.

End Session.

(** One-minute phases: 61 ticks carry Work to its end, 61 more carry
    Break to its end, and Ctrl+C then stops the second session at its
    first poll; an interrupt during the first Work leaves no other phase. *)
Example pomodoro_one_minute_phases :
  let config := mkConfig false false false false true in
  let tk := Tick (Countdown.mkTick None 80) in
  let full := Pomodoro.pomodoro_mode 1 1 config
                (replicate 61 tk ++ replicate 61 tk ++ [CtrlC]) in
  let cut := Pomodoro.pomodoro_mode 1 1 config
               (replicate 10 tk ++ [CtrlC] ++ replicate 200 tk) in
  snd full = Returned tt
  /\ List.filter between_phases (fst full)
     = [ClearScreen; Bell; Sleep 2; ClearScreen; Bell; Sleep 2; ClearScreen]
  /\ snd cut = Returned tt
  /\ List.filter between_phases (fst cut) = [ClearScreen].
Proof. vm_compute. repeat split. Qed.

(** C5. In every session of the Pomodoro loop: when the Work countdown
    returns completed, what follows is, in order, the bell (only if
    enabled), a 2-second sleep, a cleared screen and the Break countdown
    on the remaining input; when Break returns completed, what follows is
    the bell (only if enabled), a 2-second sleep, and the next iteration,
    which opens with the Work countdown labelled with the session number
    plus one; when either countdown returns interrupted the loop ends
    there, so an interrupt during Work leaves a trace with the Work
    countdown only.  Ticks without the pause key, one more than the
    seconds of each phase, carry Work and Break to completion. *)
Theorem pomodoro_session_order (work_minutes break_minutes : Z)
    (config : ClockConfig) (fuel : nat) (session : Z)
    (ins : list (input Countdown.tick)) :
  let w := Countdown.countdown_timer (work_minutes * 60)
             (Pomodoro.work_label session) Colors.RED config ins in
  let b := Countdown.countdown_timer (break_minutes * 60)
             (Pomodoro.break_label session) Colors.GREEN config
             (Countdown.rest w) in
  let next := Pomodoro.loop fuel work_minutes break_minutes config
                (session + 1) (Countdown.rest b) in
  let run := Pomodoro.loop (S fuel) work_minutes break_minutes config
               session ins in
  Pomodoro.ring config = (if bell_enabled config then [Bell] else [])
  /\ (Countdown.result w = Returned true ->
      run = ([ClearScreen] ++ Countdown.events_of w, Returned tt))
  /\ (Countdown.result w = Returned false ->
      Countdown.result b = Returned true ->
      run = ([ClearScreen] ++ Countdown.events_of w
             ++ Pomodoro.ring config ++ [Sleep 2] ++ [ClearScreen]
             ++ Countdown.events_of b, Returned tt))
  /\ (Countdown.result w = Returned false ->
      Countdown.result b = Returned false ->
      run = (([ClearScreen] ++ Countdown.events_of w
              ++ Pomodoro.ring config ++ [Sleep 2] ++ [ClearScreen]
              ++ Countdown.events_of b)
             ++ Pomodoro.ring config ++ [Sleep 2] ++ fst next, snd next))
  /\ (forall fuel' ins', exists tr,
        fst (Pomodoro.loop (S fuel') work_minutes break_minutes config
               (session + 1) ins')
        = [ClearScreen]
          ++ Countdown.events_of
               (Countdown.countdown_timer (work_minutes * 60)
                  (Pomodoro.work_label (session + 1)) Colors.RED config ins')
          ++ tr)
  /\ (forall tw tb more,
        0 <= work_minutes -> 0 <= break_minutes ->
        length tw = S (Z.to_nat (work_minutes * 60)) ->
        length tb = S (Z.to_nat (break_minutes * 60)) ->
        Forall no_pause tw -> Forall no_pause tb ->
        ins = List.map Tick tw ++ List.map Tick tb ++ more ->
        Countdown.result w = Returned false
        /\ Countdown.result b = Returned false
        /\ Countdown.rest b = more)
  /\ Pomodoro.pomodoro_mode work_minutes break_minutes config ins
     = Pomodoro.loop (S (length ins)) work_minutes break_minutes config 1 ins.
Proof.
  cbn zeta. split; [reflexivity |].
  split; [apply interrupted_in_work |].
  split; [apply interrupted_in_break |].
  split; [apply session_completed |].
  split; [intros; apply session_starts_with_work |].
  split; [| reflexivity].
  intros tw tb more Hw Hb Hlw Hlb Hqw Hqb ->.
  apply (both_complete work_minutes break_minutes config session tw tb more);
    assumption.
Qed.

End PomodoroFacts.

(** ** Lines printed per frame *)

Section LineCounts.

Lemma count_nl_nonneg s : 0 <= count_nl s.
Proof. unfold count_nl. lia. Qed.

Lemma count_nl_app a b : count_nl (a ++ b) = count_nl a + count_nl b.
Proof. unfold count_nl. rewrite filter_app, length_app. lia. Qed.

Lemma count_nl_spaces n : count_nl (repeat_char 32 n) = 0.
Proof.
  unfold repeat_char. induction (Z.to_nat n) as [| k IH]; [reflexivity |].
  exact IH.
Qed.

Lemma count_nl_digits d : count_nl (digits_of_uint d) = 0.
Proof. induction d; try reflexivity; exact IHd. Qed.

Lemma count_nl_str_Z n : count_nl (str_Z n) = 0.
Proof.
  unfold str_Z, str_N. destruct (n <? 0);
    rewrite ?count_nl_app, count_nl_digits; reflexivity.
Qed.

Lemma count_nl_color config color :
  count_nl color = 0 -> count_nl (get_color config color) = 0.
Proof.
  intros Hc. unfold get_color.
  destruct (white config); [reflexivity |].
  destruct (black config); [reflexivity | exact Hc].
Qed.

Lemma lines_printed_app a b :
  lines_printed (a ++ b) = lines_printed a + lines_printed b.
Proof.
  unfold lines_printed. induction a as [| e a IH]; cbn [app foldr];
    [reflexivity | rewrite IH; lia].
Qed.

(** The glyph loop never puts a line feed into a row. *)
Lemma glyph_loop_plain config text : forall lines,
  length lines = 4%nat ->
  Forall (fun r => count_nl r = 0) lines ->
  Forall (fun r => count_nl r = 0)
    (foldl (fun lines char =>
              match segments_of config !! char with
              | Some glyph => add_glyph glyph lines
              | None => lines
              end) lines text).
Proof.
  induction text as [| c text IH]; intros lines Hlen Hp; [exact Hp |].
  cbn [foldl]. destruct (known c) eqn:Hk.
  - destruct (segments_known config c Hk)
      as (g & -> & r0 & r1 & r2 & r3 & -> & _ & Hg).
    destruct lines as [| l0 [| l1 [| l2 [| l3 [| ? ?]]]]]; try discriminate.
    rewrite add_glyph_rows. apply IH; [reflexivity |].
    repeat match goal with
           | H : Forall _ (_ :: _) |- _ => inversion H; subst; clear H
           end.
    repeat constructor; rewrite !count_nl_app;
      change (count_nl (u" ")) with 0; lia.
  - rewrite (segments_unknown config c Hk). apply IH; assumption.
Qed.

(** [print_time] prints the four glyph rows and a blank line, after one
    more blank line when it is not a redraw. *)
Lemma print_time_lines config w time_str color move_back :
  count_nl color = 0 ->
  lines_printed (Display.print_time config w time_str color move_back)
  = if move_back then 5 else 6.
Proof.
  intros Hc. unfold Display.print_time.
  pose proof (glyph_loop_shape config time_str (replicate 4 []) 0%nat
                eq_refl ltac:(repeat constructor)) as (H4 & _).
  fold (glyph_rows (segments_of config) time_str) in H4.
  pose proof (glyph_loop_plain config time_str (replicate 4 []) eq_refl
                ltac:(repeat constructor)) as Hp.
  fold (glyph_rows (segments_of config) time_str) in Hp.
  destruct (glyph_rows (segments_of config) time_str)
    as [| l0 [| l1 [| l2 [| l3 [| ? ?]]]]]; try discriminate.
  repeat match goal with
         | H : Forall _ (_ :: _) |- _ => inversion H; subst; clear H
         end.
  pose proof (count_nl_color config color Hc) as Hcol.
  rewrite !lines_printed_app. cbn [List.map lines_printed foldr lines_of].
  rewrite !count_nl_app, !count_nl_spaces, Hcol.
  repeat match goal with H : count_nl _ = 0 |- _ => rewrite H; clear H end.
  change (count_nl Colors.RESET) with 0. change (count_nl []) with 0.
  destruct move_back; reflexivity.
Qed.

Lemma print_label_lines config w label color :
  count_nl label = 0 -> count_nl color = 0 ->
  lines_printed (Display.print_label config w label color) = 2.
Proof.
  intros Hl Hc. unfold Display.print_label.
  cbn [lines_printed foldr lines_of].
  rewrite !count_nl_app, !count_nl_spaces, (count_nl_color config color Hc), Hl.
  reflexivity.
Qed.

Lemma print_progress_bar_lines config w p color :
  lines_printed (Display.print_progress_bar config w p color) = 2.
Proof. reflexivity. Qed.

End LineCounts.

Section FrameHeights.
Variable config : ClockConfig.

(** A countdown frame is as high as the cursor move that precedes the
    next one. *)
Lemma countdown_frame_lines label color remaining paused w p :
  count_nl label = 0 -> count_nl color = 0 ->
  lines_printed (Countdown.draw_head config label color remaining paused w
                 ++ Countdown.draw_bar config color p w)
  = Countdown.lines_to_move config.
Proof.
  intros Hl Hc. unfold Countdown.draw_head, Countdown.draw_bar,
    Countdown.lines_to_move.
  rewrite !lines_printed_app, (print_time_lines _ _ _ _ true Hc),
    print_progress_bar_lines.
  destruct (focus config); cbn [negb].
  - destruct paused; cbn [lines_printed foldr lines_of];
      rewrite !count_nl_app, !count_nl_spaces,
        ?(count_nl_color config Colors.GRAY eq_refl); reflexivity.
  - rewrite print_label_lines; [reflexivity | | reflexivity].
    destruct paused; rewrite count_nl_app, Hl; reflexivity.
Qed.

(** A redrawn clock frame is as high as the cursor move; the first frame
    has one more line, the blank line above the glyphs. *)
Lemma clock_frame_lines r move_back :
  count_nl (Clock.date_str r) = 0 ->
  lines_printed (Clock.draw config r move_back)
  = Clock.lines_to_move config + (if move_back then 0 else 1).
Proof.
  intros Hd. unfold Clock.draw, Clock.lines_to_move.
  rewrite lines_printed_app, (print_time_lines _ _ _ Colors.CYAN _ eq_refl).
  destruct (focus config); cbn [negb].
  - destruct move_back; reflexivity.
  - rewrite (print_label_lines _ _ _ Colors.MAGENTA Hd eq_refl).
    destruct move_back; reflexivity.
Qed.

(** A stopwatch frame has 7 lines, except in focus mode while running,
    where the row under the glyphs is a bare line feed: 6 lines. *)
Lemma stopwatch_frame_lines st w :
  lines_printed (Stopwatch.draw config st w)
  = if focus config && negb (Stopwatch.paused st) then 6 else 7.
Proof.
  unfold Stopwatch.draw.
  rewrite lines_printed_app, (print_time_lines _ _ _ Colors.BLUE true eq_refl).
  destruct (focus config); cbn [negb andb].
  - destruct (Stopwatch.paused st); cbn [negb lines_printed foldr lines_of];
      rewrite ?count_nl_app, ?count_nl_spaces,
        ?(count_nl_color config Colors.GRAY eq_refl); reflexivity.
  - rewrite print_label_lines; [reflexivity | | reflexivity].
    destruct (Stopwatch.paused st); reflexivity.
Qed.

End FrameHeights.

(** X7. In the modes other than the focused stopwatch the height of every
    redrawn frame is the cursor move of its loop, one of 5, 7, 8, 9. *)
Lemma frames_match_cursor_moves (config : ClockConfig) :
  (forall total_seconds label color ins,
     count_nl label = 0 -> count_nl color = 0 ->
     Forall (fun fr => lines_printed (Countdown.drawn fr)
                       = Countdown.lines_to_move config)
       (Countdown.frames
          (Countdown.countdown_timer total_seconds label color config ins)))
  /\ (forall r, count_nl (Clock.date_str r) = 0 ->
        lines_printed (Clock.draw config r true)
        = Clock.lines_to_move config)
  /\ (forall st w,
        focus config = false \/ Stopwatch.paused st = true ->
        lines_printed (Stopwatch.draw config st w)
        = Stopwatch.lines_to_move)
  /\ Clock.lines_to_move config ∈ [5; 7]
  /\ Stopwatch.lines_to_move = 7
  /\ Countdown.lines_to_move config ∈ [8; 9].
Proof.
  repeat split.
  - intros total_seconds label color ins Hl Hc.
    eapply Forall_impl;
      [apply CountdownFacts.loop_frames_drawn |].
    intros fr (w & ->). apply countdown_frame_lines; assumption.
  - intros r Hd. rewrite (clock_frame_lines config r true Hd). lia.
  - intros st w H. rewrite stopwatch_frame_lines.
    destruct H as [-> | ->]; [reflexivity |].
    rewrite andb_false_r. reflexivity.
  - unfold Clock.lines_to_move. destruct (focus config); cbn; set_solver.
  - unfold Countdown.lines_to_move. destruct (focus config); cbn; set_solver.
Qed.

(** C2 (the stopwatch in focus mode). Two iterations of the focused
    stopwatch without a key: the first frame prints 6 terminal lines,
    and the second iteration moves the cursor up by 7. *)
Theorem stopwatch_focus_frame_one_line_short
    (bold_style white_text black_text bell : bool) (t0 : Q)
    (w1 w2 : Z) (ta tb tc td : Q) :
  let config := mkConfig true bold_style white_text black_text bell in
  let '(frs, _, _) :=
    Stopwatch.loop config (Stopwatch.init t0)
      [Tick (Stopwatch.mkTick None w1 ta tb);
       Tick (Stopwatch.mkTick None w2 tc td)] in
  exists f1 f2,
    frs = [f1; f2]
    /\ Stopwatch.before f1 = []
    /\ lines_printed (Stopwatch.drawn f1) = 6
    /\ Stopwatch.before f2 = [MoveUp 7]
    /\ lines_printed (Stopwatch.drawn f2) = 6.
Proof.
  cbn zeta. cbn [Stopwatch.loop Stopwatch.step].
  do 2 eexists. split; [reflexivity |].
  cbn [Stopwatch.before Stopwatch.drawn].
  rewrite !stopwatch_frame_lines.
  repeat split.
Qed.

(** ** Argument validation *)

Section Validation.
Context `{UD : UnicodeData}.

(** Evaluate [int] on the short literal parts of a split text. *)
Ltac eval_short_parts :=
  repeat match goal with
         | |- context [split ?a ?b] =>
           let r := eval vm_compute in (split a b) in
           change (split a b) with r
         end;
  cbv iota; rewrite ?py_int_short by (cbn; lia).

(** X18. The checks made in [main] itself end the process with status 1 after
    one error line: conflicting colours, and a non-empty Pomodoro
    argument that is not two positive integers.  An empty Pomodoro
    argument is taken as no [-p] at all. *)
Lemma main_rejects_with_status_1 (env : Env) :
  (forall args,
     a_white args = true -> a_black args = true ->
     main args env
     = ([error_line (u"--white and --black are mutually exclusive")], Some 1))
  /\ (forall args c s,
        a_white args && a_black args = false ->
        a_pomodoro args = Some (c :: s) ->
        pomodoro_minutes (c :: s) = None ->
        main args env
        = ([error_line (u"Pomodoro format is W,B (e.g., 25,5)")], Some 1))
  /\ (forall args,
        a_pomodoro args = Some [] ->
        main args env
        = main (mkArgs (a_focus args) (a_bold args) (a_white args)
                  (a_black args) (a_no_bell args) None (a_stopwatch args)
                  (a_timer args)) env)
  /\ pomodoro_minutes (u"0,5") = None
  /\ pomodoro_minutes (u"25,-5") = None
  /\ pomodoro_minutes (u"25") = None
  /\ pomodoro_minutes (u"25,5") = Some (25, 5).
Proof.
  split; [| split; [| split]].
  - intros args Hw Hb. unfold main. rewrite Hw, Hb. reflexivity.
  - intros args c s Hwb Hp Hm. unfold main. rewrite Hwb, Hp.
    cbn [given]. rewrite Hm. reflexivity.
  - intros args Hp. unfold main. rewrite Hp. reflexivity.
  - repeat split; unfold pomodoro_minutes; eval_short_parts; reflexivity.
Qed.

(** [timer_mode] reports a bad duration by printing and returning, so
    [main] falls off its end. *)
Lemma timer_mode_rejects_by_returning config ins duration_str :
  (parse_duration duration_str = ValueError duration_error ->
   timer_mode duration_str config ins
   = ([error_line duration_error], Returned tt))
  /\ (forall v, parse_duration duration_str = Ok v -> v <= 0 ->
      timer_mode duration_str config ins
      = ([error_line (u"Duration must be positive")], Returned tt)).
Proof.
  unfold timer_mode. split.
  - intros ->. reflexivity.
  - intros v -> Hv. apply Z.leb_le in Hv. rewrite Hv. reflexivity.
Qed.

End Validation.

(** C1 (the timer argument). A duration that does not parse, or parses
    to a value that is not positive, makes the process print the one
    error line and run no mode, and the process ends with status 0; an
    empty duration is taken as no [-t] at all and the clock mode runs. *)
Theorem timer_errors_end_with_status_0 `{UD : UnicodeData} (env : Env) :
  let args := fun timer =>
    mkArgs false false false false false None false timer in
  main (args (Some (u"abc"))) env = ([error_line duration_error], Some 0)
  /\ main (args (Some (u"0"))) env
     = ([error_line (u"Duration must be positive")], Some 0)
  /\ main (args (Some (u"-5"))) env
     = ([error_line (u"Duration must be positive")], Some 0)
  /\ main (args (Some (u""))) env = main (args None) env.
Proof.
  cbn zeta.
  assert (H0 : parse_duration (u"0") = Ok 0).
  { rewrite (parse_duration_one (u"0") (u"0") eq_refl).
    rewrite py_int_short by (cbn; lia). reflexivity. }
  assert (H5 : parse_duration (u"-5") = Ok (-5)).
  { rewrite (parse_duration_one (u"-5") (u"-5") eq_refl).
    rewrite py_int_short by (cbn; lia). reflexivity. }
  split; [reflexivity | split; [| split; [| reflexivity]]];
    unfold main; cbn [a_white a_black andb a_pomodoro a_stopwatch a_timer];
    match goal with
    | |- context [given (Some ?t)] =>
      change (given (Some t)) with (Some t)
    end;
    cbn [given]; unfold timer_mode; rewrite ?H0, ?H5; reflexivity.
Qed.

(** * Further properties of the code *)

(** ** Time text: formatting against parsing and rendering *)

Section TimeText.
Context `{UD : UnicodeData}.


(** X1. A non-negative number of seconds, formatted and parsed again,
    is the number itself, as long as the hours it amounts to take no more
    digits than the interpreter's limit; below 100 hours that is always
    so. *)
Theorem parse_duration_format_time (s : Z) :
  0 <= s ->
  (within_limit (fmt_02d (s / 3600)) ->
   parse_duration (format_time s) = Ok s)
  /\ (s < 360000 -> parse_duration (format_time s) = Ok s).
Proof.
  intros Hs.
  assert (Hh0 : 0 <= s / 3600) by (apply Z.div_pos; lia).
  assert (Hm : 0 <= s mod 3600 / 60 < 100).
  { pose proof (Z.mod_pos_bound s 3600 ltac:(lia)).
    split; [apply Z.div_pos; lia | apply Z.div_lt_upper_bound; lia]. }
  assert (Hsec : 0 <= s mod 60 < 100)
    by (pose proof (Z.mod_pos_bound s 60); lia).
  pose proof (Z.div_mod s 3600 ltac:(lia)) as D1.
  pose proof (Z.div_mod (s mod 3600) 60 ltac:(lia)) as D2.
  assert (D3 : (s mod 3600) mod 60 = s mod 60).
  { apply Z.mod_mod_divide. exists 60. reflexivity. }
  destruct (fmt_02d_decimal (s / 3600) Hh0) as (zh & Eh & _).
  destruct (fmt_02d_decimal (s mod 3600 / 60) ltac:(lia)) as (zm & Em & _).
  destruct (fmt_02d_decimal (s mod 60) ltac:(lia)) as (zs & Es & _).
  assert (Wm : within_limit (decimal zm (Z.to_N (s mod 3600 / 60)))).
  { rewrite <- Em, (fmt_02d_two_digits _ Hm).
    apply short_within_limit. cbn. lia. }
  assert (Ws : within_limit (decimal zs (Z.to_N (s mod 60)))).
  { rewrite <- Es, (fmt_02d_two_digits _ Hsec).
    apply short_within_limit. cbn. lia. }
  assert (Hcore : within_limit (fmt_02d (s / 3600)) ->
                  parse_duration (format_time s) = Ok s).
  { intros Wh. rewrite Eh in Wh. unfold format_time. rewrite Eh, Em, Es.
    destruct (0 <? s / 3600) eqn:E.
    - apply Z.ltb_lt in E.
      erewrite parse_duration_three
        by (change (u":" ++ ?x) with (ord ":" :: x);
            rewrite (split_app _ _ _ (decimal_no_colon zh _));
            change (u":" ++ decimal zs (Z.to_N (s mod 60)))
              with (ord ":" :: decimal zs (Z.to_N (s mod 60)));
            rewrite (split_app _ _ _ (decimal_no_colon zm _)),
              (split_no_sep _ _ (decimal_no_colon zs _)); reflexivity).
      rewrite (py_int_decimal _ _ Wh), (py_int_decimal _ _ Wm),
        (py_int_decimal _ _ Ws), !Z2N.id by lia.
      f_equal. lia.
    - apply Z.ltb_ge in E.
      erewrite parse_duration_two
        by (change (u":" ++ decimal zs (Z.to_N (s mod 60)))
              with (ord ":" :: decimal zs (Z.to_N (s mod 60)));
            rewrite (split_app _ _ _ (decimal_no_colon zm _)),
              (split_no_sep _ _ (decimal_no_colon zs _)); reflexivity).
      rewrite (py_int_decimal _ _ Wm), (py_int_decimal _ _ Ws),
        !Z2N.id by lia.
      f_equal. lia. }
  split; [exact Hcore |].
  intros Hlt. apply Hcore.
  rewrite fmt_02d_two_digits
    by (split; [lia | apply Z.div_lt_upper_bound; lia]).
  apply short_within_limit. cbn. lia.
Qed.

End TimeText.

Lemma parse_duration_format_time_witness :
  0 <= 3725 /\ parse_duration (format_time 3725) = Ok 3725.
Proof.
  split; [lia |].
  apply (parse_duration_format_time 3725 ltac:(lia)). lia.
Defined.






(** X3. Below one hour, negative values included, only the seconds within the
    hour are shown: a negative duration wraps instead of failing. *)
Theorem format_time_wraps_below_hour (s : Z) :
  s < 3600 ->
  format_time s = format_time (s mod 3600)
  /\ format_time (-1) = u"59:59".
Proof.
  intros Hs. split; [| vm_compute; reflexivity].
  pose proof (Z.mod_pos_bound s 3600 ltac:(lia)) as Hm.
  unfold format_time.
  assert (Hh : s / 3600 <= 0).
  { destruct (Z.le_gt_cases 0 s) as [H0 | H0].
    - rewrite Z.div_small; lia.
    - pose proof (Z.div_lt_upper_bound s 3600 0 ltac:(lia) ltac:(lia)).
      lia. }
  destruct (0 <? s / 3600) eqn:E; [apply Z.ltb_lt in E; lia |].
  rewrite (Z.div_small (s mod 3600) 3600) by lia.
  cbn [Z.ltb Z.compare].
  rewrite (Z.mod_small (s mod 3600) 3600) by lia.
  rewrite (Z.mod_mod_divide s 3600 60) by (exists 60; reflexivity).
  reflexivity.
Qed.

Lemma format_time_wraps_below_hour_witness :
  -30 < 3600 /\ format_time (-30) = format_time 3570.
Proof.
  split; [lia |].
  destruct (format_time_wraps_below_hour (-30) ltac:(lia)) as (E & _).
  exact E.
Defined.

(** ** Layout on the terminal *)

(** X4. The left padding is never negative; a text that fits leaves a right
    margin equal to the padding or one column more, and a text wider than
    the terminal gets no padding. *)
Theorem center_padding_centres (cols text_length : Z) :
  let pad := Display.center_padding cols text_length in
  0 <= pad
  /\ (text_length <= cols ->
      pad + text_length <= cols
      /\ pad <= cols - text_length - pad <= pad + 1)
  /\ (cols <= text_length -> pad = 0).
Proof.
  cbn zeta. unfold Display.center_padding.
  pose proof (Z.div_mod (cols - text_length) 2 ltac:(lia)) as Hd.
  pose proof (Z.mod_pos_bound (cols - text_length) 2 ltac:(lia)) as Hm.
  repeat split; lia.
Qed.

(** X5. [print_time] gives the four glyph rows one and the same left padding,
    the centring of the common row width, so the block is not sheared;
    the colour codes take no column. *)
Theorem print_time_rows_aligned (config : ClockConfig) (cols : Z)
    (time_str color : pystr) (move_back : bool) :
  let width := Z.of_nat (text_width (bold config) time_str) in
  let pad := Display.center_padding cols width in
  Display.print_time config cols time_str color move_back
  = (if move_back then [] else [Print []])
    ++ List.map (fun row => Print (repeat_char 32 pad
                                   ++ get_color config color ++ row
                                   ++ Colors.RESET))
         (glyph_rows (segments_of config) time_str)
    ++ [Print []]
  /\ 0 <= pad
  /\ (width <= cols -> pad + width <= cols).
Proof.
  cbn zeta.
  split; [| unfold Display.center_padding;
            pose proof (Z.div_mod
                          (cols - Z.of_nat (text_width (bold config) time_str))
                          2 ltac:(lia));
            pose proof (Z.mod_pos_bound
                          (cols - Z.of_nat (text_width (bold config) time_str))
                          2 ltac:(lia));
            split; lia].
  unfold Display.print_time. f_equal. f_equal.
  destruct (glyph_loop_shape config time_str (replicate 4 []) 0%nat
              eq_refl ltac:(repeat constructor)) as (_ & Hw).
  fold (glyph_rows (segments_of config) time_str) in Hw.
  apply Forall_fmap_ext_1.
  eapply Forall_impl; [exact Hw |].
  intros row Hrow. cbn beta. unfold len, Display.center_padding.
  rewrite Hrow. reflexivity.
Qed.

(** X6. The bar is between 20 and 100 cells long, 20 columns less than the
    terminal where that lies in the range; its padding is never negative
    and, from 30 columns on, padding, bar and the 10 columns kept for
    brackets and percentage fit the terminal, and so does the row with a
    percentage text of up to 7 characters.  Below 30 columns the padding
    is 0 and the bar is 20 cells; the row, whose percentage text has at
    least the 4 characters of [0.0%], is wider than the terminal below 27
    columns, and with a text of 6 characters ([100.0%]) below 29. *)
Theorem progress_bar_geometry (config : ClockConfig) (cols : Z)
    (progress : Q) (color : pystr) :
  exists bar_padding bar_length,
    Display.print_progress_bar config cols progress color
    = [PrintBar bar_padding bar_length (get_color config color) progress;
       Print []]
    /\ MIN_BAR_LENGTH <= bar_length <= MAX_BAR_LENGTH
    /\ 0 <= bar_padding
    /\ (40 <= cols <= 120 -> bar_length = cols - 20)
    /\ (cols <= 40 -> bar_length = 20)
    /\ (120 <= cols -> bar_length = 100)
    /\ (30 <= cols -> 2 * bar_padding + bar_length + 10 <= cols)
    /\ (30 <= cols -> forall percent, percent <= 7 ->
        bar_row_width bar_padding bar_length percent <= cols)
    /\ (cols < 30 -> bar_padding = 0 /\ bar_length = 20)
    /\ (forall percent,
          4 <= percent ->
          (cols < 27 -> cols < bar_row_width bar_padding bar_length percent)
          /\ (cols < 30 ->
              (bar_row_width bar_padding bar_length percent <= cols
               <-> 23 + percent <= cols))).
Proof.
  eexists _, _. split; [reflexivity |].
  unfold MIN_BAR_LENGTH, MAX_BAR_LENGTH, BAR_MARGIN, bar_row_width.
  set (L := Z.max 20 (Z.min 100 (cols - 20))).
  assert (HL : 20 <= L <= 100 /\ (40 <= cols <= 120 -> L = cols - 20)
               /\ (cols <= 40 -> L = 20) /\ (120 <= cols -> L = 100))
    by (subst L; lia).
  destruct HL as (HL1 & HL2 & HL3 & HL4).
  pose proof (Z.div_mod (cols - L - 10) 2 ltac:(lia)) as Hd.
  pose proof (Z.mod_pos_bound (cols - L - 10) 2 ltac:(lia)) as Hm.
  repeat split; try lia; auto; intros; lia.
Qed.

(** ** The countdown on arbitrary input *)

Module CountdownRuns.
Import Countdown.

Section AnyInput.
Variables (config : ClockConfig) (total_seconds : Z) (label color : pystr).

Lemma loop_frames_fraction ins : forall remaining paused first,
  Forall (fun fr => progress total_seconds (shown fr) = Some (fraction fr))
    (frames (loop config total_seconds label color remaining paused first
               ins)).
Proof.
  induction ins as [| [tk |] ins IH]; intros remaining paused first;
    destruct (Z.lt_ge_cases remaining 0) as [Hr | Hr];
    rewrite ?CountdownFacts.loop_exit, ?CountdownFacts.loop_starved,
      ?CountdownFacts.loop_ctrlc by assumption;
    try (cbn [frames]; constructor).
  destruct (CountdownFacts.loop_tick config total_seconds label color
              remaining paused first tk ins Hr) as (p & Hp & ->).
  cbn [cons_frame frames]. constructor; [exact Hp | apply IH].
Qed.

(** Frames rendered unpaused are one per value still to show; a
    completed run has rendered them all. *)
Lemma loop_unpaused_count ins : forall remaining paused first,
  -1 <= remaining ->
  let r := loop config total_seconds label color remaining paused first ins in
  (length (unpaused (frames r)) <= Z.to_nat (remaining + 1))%nat
  /\ (result r = Returned false ->
      length (unpaused (frames r)) = Z.to_nat (remaining + 1)).
Proof.
  induction ins as [| [tk |] ins IH]; intros remaining paused first Hrem;
    cbn zeta;
    destruct (Z.lt_ge_cases remaining 0) as [Hr | Hr];
    rewrite ?CountdownFacts.loop_exit, ?CountdownFacts.loop_starved,
      ?CountdownFacts.loop_ctrlc by assumption;
    cbn [frames result unpaused List.filter length];
    try (split; [lia | intros; try discriminate;
                       replace remaining with (-1) by lia; reflexivity]).
  destruct (CountdownFacts.loop_tick config total_seconds label color
              remaining paused first tk ins Hr) as (p & _ & ->).
  set (paused' := if pressed key_q (key tk) then negb paused else paused).
  cbn [cons_frame frames result unpaused List.filter shown_paused].
  destruct paused'; cbn [negb length].
  - apply (IH remaining true false). lia.
  - destruct (IH (remaining - 1) false false ltac:(lia)) as (Hle & Heq).
    cbn zeta in Hle, Heq. fold (unpaused (frames
      (loop config total_seconds label color (remaining - 1) false false
         ins))).
    replace (Z.to_nat (remaining + 1))
      with (S (Z.to_nat (remaining - 1 + 1))) by lia.
    split; [lia | intros H; rewrite (Heq H); reflexivity].
Qed.

(** One poll per frame: the run has read exactly the ticks of its frames
    (and the interrupt that stopped it), and hands the rest on. *)
Lemma loop_consumes ins : forall remaining paused first,
  let r := loop config total_seconds label color remaining paused first ins in
  exists tks,
    ins = consumed tks r ++ rest r
    /\ length tks = length (frames r)
    /\ tail_events r = match result r with
                       | Returned true => [Print []]
                       | _ => []
                       end
    /\ (result r = Pending -> rest r = [])
    /\ (result r = Returned true -> 0 <= remaining).
Proof.
  induction ins as [| [tk |] ins IH]; intros remaining paused first;
    cbn zeta;
    destruct (Z.lt_ge_cases remaining 0) as [Hr | Hr];
    rewrite ?CountdownFacts.loop_exit, ?CountdownFacts.loop_starved,
      ?CountdownFacts.loop_ctrlc by assumption;
    try (exists []; unfold consumed; cbn [frames result rest tail_events
           List.map app length];
         repeat split; solve [auto | discriminate]).
  destruct (CountdownFacts.loop_tick config total_seconds label color
              remaining paused first tk ins Hr) as (p & _ & ->).
  set (paused' := if pressed key_q (key tk) then negb paused else paused).
  set (r' := if negb paused' then remaining - 1 else remaining).
  destruct (IH r' paused' false) as (tks & Hins & Hlen & Htail & Hpend & _).
  cbn zeta in Hins, Hlen, Htail, Hpend.
  exists (tk :: tks). unfold consumed in *.
  cbn [cons_frame frames result rest tail_events List.map app length].
  repeat split; try assumption; try lia.
  rewrite Hins at 1. reflexivity.
Qed.

End AnyInput.

(** X8. Pausing only repeats frames.  Whatever keys arrive, a countdown from
    [total_seconds] renders at most [total_seconds + 1] frames while not
    paused, and a run that returns completed has rendered exactly that
    many: every other frame of it was rendered paused. *)
Theorem countdown_pause_only_delays (config : ClockConfig)
    (total_seconds : Z) (label color : pystr) (ins : list (input tick)) :
  let r := countdown_timer total_seconds label color config ins in
  (length (unpaused (frames r)) <= Z.to_nat (total_seconds + 1))%nat
  /\ (result r = Returned false ->
      length (unpaused (frames r)) = Z.to_nat (total_seconds + 1)
      /\ length (frames r)
         = (Z.to_nat (total_seconds + 1)
            + length (List.filter shown_paused (frames r)))%nat).
Proof.
  cbn zeta. unfold countdown_timer.
  assert (Hsplit : forall frs : list frame,
            length frs = (length (unpaused frs)
                          + length (List.filter shown_paused frs))%nat).
  { induction frs as [| fr frs IH]; [reflexivity |].
    unfold unpaused in *. cbn [List.filter].
    destruct (shown_paused fr); cbn [negb length]; lia. }
  destruct (Z.lt_ge_cases total_seconds (-1)) as [Hneg | Hok].
  - rewrite CountdownFacts.loop_exit by lia. cbn [frames unpaused
      List.filter length result].
    replace (Z.to_nat (total_seconds + 1)) with 0%nat by lia.
    split; [lia | split; reflexivity].
  - destruct (loop_unpaused_count config total_seconds label color ins
                total_seconds false true Hok) as (Hle & Heq).
    cbn zeta in Hle, Heq. split; [exact Hle |].
    intros H. split; [exact (Heq H) |].
    rewrite Hsplit, (Heq H). reflexivity.
Qed.

(** X9. The countdown reads one tick per frame.  Its input is the ticks of
    the frames, then the interrupt if one stopped it, then what it hands
    on untouched; an interrupt prints one empty line and nothing else is
    printed outside the frames; the input is exhausted only when the run
    is still pending. *)
Theorem countdown_reads_one_tick_per_frame (config : ClockConfig)
    (total_seconds : Z) (label color : pystr) (ins : list (input tick)) :
  let r := countdown_timer total_seconds label color config ins in
  exists tks,
    ins = consumed tks r ++ rest r
    /\ length tks = length (frames r)
    /\ tail_events r = match result r with
                       | Returned true => [Print []]
                       | _ => []
                       end
    /\ (result r = Pending -> rest r = [])
    /\ (result r = Returned true -> 0 <= total_seconds).
Proof.
  apply (loop_consumes config total_seconds label color ins total_seconds
           false true).
Qed.

Lemma progress_in_unit total remaining p :
  0 <= remaining <= total \/ total <= 0 ->
  progress total remaining = Some p ->
  (0 <= p <= 1)%Q
  /\ (0 < total -> remaining = total -> (p == 0)%Q)
  /\ (remaining = 0 -> (p == 1)%Q).
Proof.
  intros Hr. unfold progress, truediv.
  destruct (0 <? total) eqn:Et.
  - apply Z.ltb_lt in Et.
    destruct (total =? 0) eqn:E0; [apply Z.eqb_eq in E0; lia |].
    destruct Hr as [Hr | Hr]; [| lia].
    intros [= <-]. destruct total as [| t | t]; try lia.
    unfold Qdiv, Qinv, Qmult, Qle, Qeq, inject_Z.
    cbn [Qnum Qden Z.mul Pos.mul]. repeat split; intros; try nia.
  - intros [= <-]. repeat split; try reflexivity; try discriminate.
    apply Z.ltb_ge in Et. intros; lia.
Qed.

Lemma bar_fractions_app tr1 tr2 :
  bar_fractions (tr1 ++ tr2) = bar_fractions tr1 ++ bar_fractions tr2.
Proof.
  induction tr1 as [| e tr1 IH]; [reflexivity |].
  destruct e; cbn [app bar_fractions]; rewrite IH; reflexivity.
Qed.

Lemma bar_fractions_prints {A} (f : A -> pystr) l :
  bar_fractions (List.map (fun x => Print (f x)) l) = [].
Proof. induction l as [| x l IH]; [reflexivity | exact IH]. Qed.

(** The glyph block and the label row hold no bar. *)
Lemma draw_head_no_bar config label color remaining paused w :
  bar_fractions (draw_head config label color remaining paused w) = [].
Proof.
  unfold draw_head, Display.print_time, Display.print_label.
  rewrite !bar_fractions_app, bar_fractions_prints.
  destruct (focus config); [destruct paused |]; reflexivity.
Qed.

(** The bars printed are those of the frames, in order. *)
Lemma loop_bar_fractions config total_seconds label color ins :
  forall remaining paused first,
  let r := loop config total_seconds label color remaining paused first ins in
  bar_fractions (events_of r) = List.map fraction (frames r).
Proof.
  induction ins as [| [tk |] ins IH]; intros remaining paused first;
    cbn zeta;
    destruct (Z.lt_ge_cases remaining 0) as [Hr | Hr];
    rewrite ?CountdownFacts.loop_exit, ?CountdownFacts.loop_starved,
      ?CountdownFacts.loop_ctrlc by assumption; try reflexivity.
  destruct (CountdownFacts.loop_tick config total_seconds label color
              remaining paused first tk ins Hr) as (p & _ & ->).
  specialize (IH (if negb (if pressed key_q (key tk) then negb paused
                           else paused)
                  then remaining - 1 else remaining)
                 (if pressed key_q (key tk) then negb paused else paused)
                 false).
  cbn zeta in IH |- *. unfold events_of in IH |- *.
  cbn [cons_frame frames tail_events flat_map List.map before drawn
       fraction].
  rewrite <- !app_assoc, !bar_fractions_app, draw_head_no_bar.
  rewrite <- bar_fractions_app, IH.
  destruct first; reflexivity.
Qed.

(** X10. Every frame of a countdown draws, after the glyph block and the
    label row, the progress bar with the fraction of the frame, and the
    bars printed are those of the frames, in order.  The fraction lies
    between 0 and 1, as [print_progress_bar] expects: it is 0 on a frame
    that shows the whole of a positive total and 1 on a frame that
    shows 0. *)
Theorem countdown_fraction_in_unit_interval (config : ClockConfig)
    (total_seconds : Z) (label color : pystr) (ins : list (input tick)) :
  let r := countdown_timer total_seconds label color config ins in
  Forall (fun fr =>
            (0 <= fraction fr <= 1)%Q
            /\ (0 < total_seconds -> shown fr = total_seconds ->
                (fraction fr == 0)%Q)
            /\ (shown fr = 0 -> (fraction fr == 1)%Q))
    (frames r)
  /\ Forall (fun fr => exists w,
               drawn fr
               = draw_head config label color (shown fr) (shown_paused fr) w
                 ++ Display.print_progress_bar config w (fraction fr)
                      (if negb (focus config) then color else Colors.GRAY))
       (frames r)
  /\ bar_fractions (events_of r) = List.map fraction (frames r)
  /\ Forall (fun p => (0 <= p <= 1)%Q) (bar_fractions (events_of r)).
Proof.
  cbn zeta. unfold countdown_timer.
  assert (Hunit :
    Forall (fun fr =>
              (0 <= fraction fr <= 1)%Q
              /\ (0 < total_seconds -> shown fr = total_seconds ->
                  (fraction fr == 0)%Q)
              /\ (shown fr = 0 -> (fraction fr == 1)%Q))
      (frames (loop config total_seconds label color total_seconds false
                 true ins))).
  { destruct (CountdownFacts.loop_invariant config total_seconds label color
                ins total_seconds false true) as (Hb & _).
    pose proof (loop_frames_fraction config total_seconds label color ins
                  total_seconds false true) as Hf.
    rewrite Forall_forall in Hb, Hf |- *.
    intros fr Hin.
    apply (progress_in_unit total_seconds (shown fr) (fraction fr));
      [left; apply Hb; exact Hin | apply Hf; exact Hin]. }
  split; [exact Hunit |].
  split; [apply (CountdownFacts.loop_frames_drawn config total_seconds label
                   color ins total_seconds false true) |].
  pose proof (loop_bar_fractions config total_seconds label color ins
                total_seconds false true) as Hbars.
  cbn zeta in Hbars. split; [exact Hbars |].
  rewrite Hbars. apply Forall_fmap.
  eapply Forall_impl; [exact Hunit |].
  intros fr (H & _). exact H.
Qed.

End CountdownRuns.

(** ** The timer from the command line to the bell *)

Section TimerRuns.
Context `{UD : UnicodeData}.

(** Ctrl+C before the countdown has shown all its values. *)
Lemma countdown_interrupted config T label color tks more :
  Forall no_pause tks ->
  Z.of_nat (length tks) <= T ->
  let r := Countdown.countdown_timer T label color config
             (List.map Tick tks ++ CtrlC :: more) in
  Countdown.result r = Returned true
  /\ Countdown.rest r = more
  /\ Countdown.tail_events r = [Print []]
  /\ List.map Countdown.shown (Countdown.frames r)
     = descending T (length tks).
Proof.
  intros Hq Hlen. cbn zeta. unfold Countdown.countdown_timer.
  destruct (CountdownFacts.loop_unpaused config T label color tks T true
              (CtrlC :: more) Hq ltac:(lia)) as (frs & -> & Hshown & _).
  rewrite CountdownFacts.loop_ctrlc by lia.
  unfold prepend_frames.
  cbn [Countdown.frames Countdown.tail_events Countdown.result
       Countdown.rest].
  rewrite app_nil_r. auto.
Qed.

Lemma given_decimal zeros n : given (Some (decimal zeros n)) = Some (decimal zeros n).
Proof.
  destruct (decimal_cons zeros n) as (c & t & -> & _). reflexivity.
Qed.

(** X11. [-t] with a positive decimal duration whose numeral [int] accepts
    (its length within the interpreter's limit on digits, leading zeros
    counted).  Fed one tick more than the seconds, none with the pause key,
    the process clears the screen, prints one running frame for every value
    from the duration down to 0 (the glyph block of the formatted value,
    the label row, the bar at the frame's fraction) and nothing else, rings
    the bell unless [--no-bell] was given, and ends with status 0.
    Interrupted before that, it has printed the running frames of the
    values reached, then prints the empty line, still rings the bell unless
    [--no-bell] was given, and ends with status 0. *)
Theorem timer_from_command_line (args : Args) (env : Env) (zeros : nat)
    (n : N) (tks : list Countdown.tick)
    (more : list (input Countdown.tick)) :
  a_white args && a_black args = false ->
  given (a_pomodoro args) = None ->
  a_stopwatch args = false ->
  a_timer args = Some (decimal zeros n) ->
  within_limit (decimal zeros n) ->
  (0 < n)%N ->
  Forall no_pause tks ->
  let config := {| focus := a_focus args; bold := a_bold args;
                   white := a_white args; black := a_black args;
                   bell_enabled := negb (a_no_bell args) |} in
  let r := Countdown.countdown_timer (Z.of_N n) (u"Countdown Timer")
             Colors.YELLOW config (countdown_in env) in
  let bell := if a_no_bell args then [] else [Bell] in
  let running fr tk :=
    Countdown.drawn fr
    = running_frame config (u"Countdown Timer") Colors.YELLOW
        (Countdown.shown fr) (Countdown.fraction fr) (Countdown.cols tk) in
  (countdown_in env = List.map Tick tks ++ more ->
   length tks = S (N.to_nat n) ->
   main args env = ([ClearScreen] ++ Countdown.events_of r ++ bell, Some 0)
   /\ List.map Countdown.shown (Countdown.frames r)
      = descending (Z.of_N n) (S (N.to_nat n))
   /\ Forall2 running (Countdown.frames r) tks
   /\ Countdown.events_of r
      = flat_map (fun fr => Countdown.before fr ++ Countdown.drawn fr)
          (Countdown.frames r)
   /\ Countdown.tail_events r = [])
  /\ (countdown_in env = List.map Tick tks ++ CtrlC :: more ->
      (length tks <= N.to_nat n)%nat ->
      main args env = ([ClearScreen] ++ Countdown.events_of r ++ bell, Some 0)
      /\ List.map Countdown.shown (Countdown.frames r)
         = descending (Z.of_N n) (length tks)
      /\ Forall2 running (Countdown.frames r) tks
      /\ Countdown.events_of r
         = flat_map (fun fr => Countdown.before fr ++ Countdown.drawn fr)
             (Countdown.frames r) ++ [Print []]
      /\ Countdown.tail_events r = [Print []]).
Proof.
  intros Hwb Hp Hs Ht Hw Hn Hq. cbn zeta.
  assert (Hmain : forall b,
    Countdown.result
      (Countdown.countdown_timer (Z.of_N n) (u"Countdown Timer")
         Colors.YELLOW
         {| focus := a_focus args; bold := a_bold args;
            white := a_white args; black := a_black args;
            bell_enabled := negb (a_no_bell args) |} (countdown_in env))
    = Returned b ->
    main args env
    = ([ClearScreen]
       ++ Countdown.events_of
            (Countdown.countdown_timer (Z.of_N n) (u"Countdown Timer")
               Colors.YELLOW
               {| focus := a_focus args; bold := a_bold args;
                  white := a_white args; black := a_black args;
                  bell_enabled := negb (a_no_bell args) |}
               (countdown_in env))
       ++ (if a_no_bell args then [] else [Bell]), Some 0)).
  { intros b Hres. unfold main. rewrite Hwb, Hp, Hs, Ht, given_decimal.
    unfold timer_mode.
    assert (Hparse : parse_duration (decimal zeros n) = Ok (Z.of_N n)).
    { rewrite (parse_duration_one _ _
                 (split_no_sep _ _ (decimal_no_colon zeros n))).
      rewrite (py_int_decimal _ _ Hw). reflexivity. }
    rewrite Hparse.
    destruct (Z.of_N n <=? 0) eqn:E; [apply Z.leb_le in E; lia |].
    cbv zeta. rewrite Hres. cbn [bell_enabled].
    destruct (a_no_bell args); cbn [negb]; rewrite <- ?app_assoc;
      reflexivity. }
  split.
  - intros Hin Hlen.
    destruct (CountdownFacts.countdown_unpaused_run
                {| focus := a_focus args; bold := a_bold args;
                   white := a_white args; black := a_black args;
                   bell_enabled := negb (a_no_bell args) |}
                (u"Countdown Timer") Colors.YELLOW (Z.of_N n) tks more
                ltac:(lia) ltac:(rewrite Hlen; f_equal; lia) Hq)
      as (Hshown & _ & _ & Htail & Hres & Hrest).
    cbn zeta in Hshown, Htail, Hres, Hrest.
    destruct (CountdownFacts.frames_drawn_running
                {| focus := a_focus args; bold := a_bold args;
                   white := a_white args; black := a_black args;
                   bell_enabled := negb (a_no_bell args) |}
                (u"Countdown Timer") Colors.YELLOW (Z.of_N n)
                (List.map Tick tks ++ more) tks) as (Hdrawn & Hevents);
      [unfold consumed; rewrite Hres, Hrest, app_nil_r; reflexivity
      | exact Hq |].
    rewrite Htail, app_nil_r in Hevents.
    rewrite <- Hin in Hshown, Htail, Hres, Hdrawn, Hevents.
    split; [apply (Hmain false Hres) |].
    split; [rewrite Hshown; f_equal; f_equal; lia |].
    split; [exact Hdrawn |].
    split; [exact Hevents | exact Htail].
  - intros Hin Hlen.
    destruct (countdown_interrupted
                {| focus := a_focus args; bold := a_bold args;
                   white := a_white args; black := a_black args;
                   bell_enabled := negb (a_no_bell args) |}
                (Z.of_N n) (u"Countdown Timer") Colors.YELLOW tks more
                Hq ltac:(lia)) as (Hres & Hrest & Htail & Hshown).
    cbn zeta in Hshown, Htail, Hres, Hrest.
    destruct (CountdownFacts.frames_drawn_running
                {| focus := a_focus args; bold := a_bold args;
                   white := a_white args; black := a_black args;
                   bell_enabled := negb (a_no_bell args) |}
                (u"Countdown Timer") Colors.YELLOW (Z.of_N n)
                (List.map Tick tks ++ CtrlC :: more) tks)
      as (Hdrawn & Hevents);
      [unfold consumed; rewrite Hres, Hrest, <- app_assoc; reflexivity
      | exact Hq |].
    rewrite Htail in Hevents.
    rewrite <- Hin in Hshown, Htail, Hres, Hdrawn, Hevents.
    split; [apply (Hmain true Hres) |].
    split; [exact Hshown |].
    split; [exact Hdrawn |].
    split; [exact Hevents | exact Htail].
Qed.

End TimerRuns.

Lemma timer_from_command_line_witness :
  let tk := Countdown.mkTick None 80 in
  let args := mkArgs false false false false false None false
                (Some (decimal 0 3)) in
  let env := mkEnv (Clock.mkReading [] [] 80) [] 0 []
               (List.map Tick (replicate 4 tk)) in
  snd (main args env) = Some 0
  /\ last (fst (main args env)) = Some Bell.
Proof.
  cbn zeta.
  pose proof (timer_from_command_line
    (mkArgs false false false false false None false (Some (decimal 0 3)))
    (mkEnv (Clock.mkReading [] [] 80) [] 0 []
       (List.map Tick (replicate 4 (Countdown.mkTick None 80))))
    0 3 (replicate 4 (Countdown.mkTick None 80)) []
    eq_refl eq_refl eq_refl eq_refl
    (short_within_limit (decimal 0 3) ltac:(cbn; lia)) eq_refl
    ltac:(repeat constructor)) as H.
  cbn zeta in H. destruct H as (H & _).
  destruct (H ltac:(cbn [countdown_in]; symmetry; apply app_nil_r) eq_refl)
    as (E & _).
  rewrite E. cbn [snd fst]. split; [reflexivity |].
  rewrite !app_assoc. apply last_snoc.
Defined.

(** ** Modes that run until interrupted *)

Section UntilInterrupted.
Variable config : ClockConfig.

Lemma clock_loop_ticks tks : forall tail,
  Clock.loop config (List.map Tick tks ++ tail)
  = (flat_map (fun r => [Sleep 1; MoveUp (Clock.lines_to_move config)]
                        ++ Clock.draw config r true) tks
     ++ fst (Clock.loop config tail), snd (Clock.loop config tail)).
Proof.
  induction tks as [| r tks IH]; intros tail; cbn [List.map app flat_map].
  - destruct (Clock.loop config tail); reflexivity.
  - cbn [Clock.loop]. rewrite IH. cbn [fst snd].
    rewrite <- !app_assoc. reflexivity.
Qed.



End UntilInterrupted.

(** X12. The clock redraws once a second for as long as ticks arrive: it
    returns only on Ctrl+C, after an empty line, ignores what follows, and
    the process then ends with status 0. *)
Theorem clock_redraws_until_interrupt `{UD : UnicodeData}
    (config : ClockConfig) (first : Clock.reading)
    (tks : list Clock.reading) (more : list (input Clock.reading)) :
  let redraws :=
    flat_map (fun r => [Sleep 1; MoveUp (Clock.lines_to_move config)]
                       ++ Clock.draw config r true) tks in
  Clock.clock_mode config first (List.map Tick tks ++ CtrlC :: more)
  = ([ClearScreen] ++ Clock.draw config first false ++ redraws
     ++ [Print []], Returned tt)
  /\ Clock.clock_mode config first (List.map Tick tks)
     = ([ClearScreen] ++ Clock.draw config first false ++ redraws, Pending)
  /\ (forall args env,
        a_white args && a_black args = false ->
        given (a_pomodoro args) = None -> a_stopwatch args = false ->
        given (a_timer args) = None ->
        clock_in env = List.map Tick tks ++ CtrlC :: more ->
        snd (main args env) = Some 0).
Proof.
  cbn zeta. unfold Clock.clock_mode. split; [| split].
  - rewrite clock_loop_ticks. cbn [Clock.loop fst snd]. reflexivity.
  - rewrite <- (app_nil_r (List.map Tick tks)) at 1.
    rewrite clock_loop_ticks. cbn [Clock.loop fst snd].
    rewrite app_nil_r. reflexivity.
  - intros args env Hwb Hp Hs Ht Hin. unfold main.
    rewrite Hwb, Hp, Hs, Ht, Hin. unfold Clock.clock_mode.
    rewrite clock_loop_ticks. reflexivity.
Qed.


(** ** What the stopwatch shows *)

Module StopwatchRuns.
Import Stopwatch.

Lemma advance_bounds t0 st tk t :
  stopwatch_bounds t0 st t ->
  (t <= t_key tk)%Q -> (t_key tk <= t_now tk)%Q ->
  stopwatch_bounds t0 (advance st tk) (t_now tk).
Proof.
  intros (Hinv & Hstart & He0 & He) H1 H2.
  destruct (StopwatchFacts.advance_inv st tk t Hinv H1 H2) as (Hinv' & Hrun).
  unfold stopwatch_bounds. split; [exact Hinv' |].
  destruct Hinv as (Hs & Hp).
  assert (Hstart' : (t0 <= start_time (advance st tk))%Q).
  { destruct st as [s0 e0 p0 ps0 f0]. unfold advance.
    cbn [start_time paused pause_start elapsed first_iteration] in *.
    destruct (pressed key_q (key tk));
      [| destruct (pressed key_r (key tk))];
      destruct p0; cbn [negb start_time paused];
      try (destruct (Hp eq_refl)); lra. }
  split; [exact Hstart' |].
  destruct (paused (advance st tk)) eqn:Ep.
  - assert (Hsame : elapsed (advance st tk) = elapsed st).
    { destruct st as [s0 e0 p0 ps0 f0]. unfold advance in Ep |- *.
      cbn [start_time paused pause_start elapsed first_iteration] in *.
      destruct (pressed key_q (key tk));
        [| destruct (pressed key_r (key tk))];
        destruct p0; cbn [negb paused elapsed] in Ep |- *;
        (discriminate || reflexivity). }
    rewrite Hsame. split; [exact He0 | lra].
  - rewrite (Hrun eq_refl). destruct Hinv' as (Hs' & _).
    split.
    + change 0 with (Qfloor 0). apply Qfloor_resp_le. lra.
    + pose proof (Qfloor_le (t_now tk - start_time (advance st tk))). lra.
Qed.

Lemma run_bounds t0 tks : forall st t tk,
  stopwatch_bounds t0 st t ->
  monotone_ticks t (tks ++ [tk]) ->
  stopwatch_bounds t0 (foldl advance st (tks ++ [tk])) (t_now tk).
Proof.
  induction tks as [| tk0 tks IH]; intros st t tk Hb Hmono.
  - cbn in Hmono |- *. apply (advance_bounds t0 st tk t); tauto.
  - cbn [app monotone_ticks] in Hmono.
    destruct Hmono as (H1 & H2 & Hmono). cbn [app foldl].
    apply (IH _ (t_now tk0) tk); [| exact Hmono].
    apply (advance_bounds t0 st tk0 t Hb H1 H2).
Qed.

(** X14. With clock readings that never go back, what the stopwatch holds
    after any number of iterations (pauses, resumes and resets included)
    is never negative and never more than the time since the mode
    started, and the reference start never lies before that instant. *)
Theorem stopwatch_elapsed_within_wall_time (t0 : Q) (tks : list tick)
    (tk : tick) :
  monotone_ticks t0 (tks ++ [tk]) ->
  let st := foldl advance (init t0) (tks ++ [tk]) in
  0 <= elapsed st
  /\ (inject_Z (elapsed st) <= t_now tk - t0)%Q
  /\ (t0 <= start_time st <= t_now tk)%Q.
Proof.
  intros Hmono. cbn zeta.
  assert (Hinit : stopwatch_bounds t0 (init t0) t0).
  { split; [apply StopwatchFacts.init_inv |].
    cbn [init start_time elapsed]. change (inject_Z 0) with 0%Q.
    split; [lra | split; [lia | lra]]. }
  destruct (run_bounds t0 tks (init t0) t0 tk Hinit Hmono)
    as ((Hs & _) & Hst & He0 & He).
  repeat split; assumption.
Qed.

Lemma stopwatch_elapsed_within_wall_time_witness :
  let tks := [at_time None 2; at_time (Some key_q) 3; at_time None 8] in
  monotone_ticks 0 (tks ++ [at_time (Some key_q) 9])
  /\ 0 <= elapsed (foldl advance (init 0) (tks ++ [at_time (Some key_q) 9]))
  /\ (inject_Z (elapsed (foldl advance (init 0)
                           (tks ++ [at_time (Some key_q) 9]))) <= 9 - 0)%Q.
Proof.
  cbn zeta.
  assert (Hm : monotone_ticks 0
                 ([at_time None 2; at_time (Some key_q) 3; at_time None 8]
                  ++ [at_time (Some key_q) 9]))
    by (cbn; repeat split; unfold Qle; cbn; lia).
  split; [exact Hm |].
  destruct (stopwatch_elapsed_within_wall_time 0
              [at_time None 2; at_time (Some key_q) 3; at_time None 8]
              (at_time (Some key_q) 9) Hm) as (H0 & H1 & _).
  split; [exact H0 | exact H1].
Defined.

End StopwatchRuns.

(** ** Pomodoro: the argument and the endless loop *)

Section PomodoroRuns.
Context `{UD : UnicodeData}.
Variables (work_minutes break_minutes : Z) (config : ClockConfig).

(** A countdown returns interrupted only on an interrupt, and hands on a
    part of its input. *)
Lemma countdown_without_interrupt total label color ins :
  Forall (fun i => i <> CtrlC) ins ->
  let r := Countdown.countdown_timer total label color config ins in
  Countdown.result r <> Returned true
  /\ Forall (fun i => i <> CtrlC) (Countdown.rest r).
Proof.
  intros Hno. cbn zeta.
  destruct (CountdownRuns.loop_consumes config total label color ins
              total false true) as (tks & Hins & _).
  cbn zeta in Hins. fold (Countdown.countdown_timer total label color
                            config ins) in Hins.
  rewrite Hins in Hno. apply Forall_app in Hno as (Hc & Hrest).
  split; [| exact Hrest].
  intros Hres. unfold consumed in Hc. rewrite Hres in Hc.
  apply Forall_app in Hc as (_ & Hc). inversion Hc; subst. congruence.
Qed.

Lemma pomodoro_never_raises fuel : forall session ins,
  snd (Pomodoro.loop fuel work_minutes break_minutes config session ins)
  <> Raised.
Proof.
  induction fuel as [| fuel IH]; intros session ins; [discriminate |].
  cbn [Pomodoro.loop].
  pose proof (CountdownFacts.loop_never_raises config (work_minutes * 60)
                (Pomodoro.work_label session) Colors.RED ins
                (work_minutes * 60) false true) as Hw.
  fold (Countdown.countdown_timer (work_minutes * 60)
          (Pomodoro.work_label session) Colors.RED config ins) in Hw.
  destruct (Countdown.result (Countdown.countdown_timer _ _ _ _ ins))
    as [[|] | |]; try discriminate; [| contradiction].
  match goal with
  | |- context [Countdown.countdown_timer (break_minutes * 60) ?l ?c _ ?i] =>
    pose proof (CountdownFacts.loop_never_raises config (break_minutes * 60)
                  l c i (break_minutes * 60) false true) as Hb;
    fold (Countdown.countdown_timer (break_minutes * 60) l c config i) in Hb;
    destruct (Countdown.result
                (Countdown.countdown_timer (break_minutes * 60) l c config i))
      as [[|] | |]; try discriminate; [| contradiction]
  end.
  match goal with
  | |- context [Pomodoro.loop fuel _ _ _ ?s ?i] =>
    specialize (IH s i);
    destruct (Pomodoro.loop fuel work_minutes break_minutes config s i)
  end.
  exact IH.
Qed.

Lemma pomodoro_pending_without_interrupt fuel : forall session ins,
  Forall (fun i => i <> CtrlC) ins ->
  snd (Pomodoro.loop fuel work_minutes break_minutes config session ins)
  = Pending.
Proof.
  induction fuel as [| fuel IH]; intros session ins Hno; [reflexivity |].
  cbn [Pomodoro.loop].
  destruct (countdown_without_interrupt (work_minutes * 60)
              (Pomodoro.work_label session) Colors.RED ins Hno)
    as (Hw & Hrest).
  cbn zeta in Hw, Hrest.
  pose proof (CountdownFacts.loop_never_raises config (work_minutes * 60)
                (Pomodoro.work_label session) Colors.RED ins
                (work_minutes * 60) false true) as Hwr.
  fold (Countdown.countdown_timer (work_minutes * 60)
          (Pomodoro.work_label session) Colors.RED config ins) in Hwr.
  destruct (Countdown.result
              (Countdown.countdown_timer (work_minutes * 60)
                 (Pomodoro.work_label session) Colors.RED config ins))
    as [[|] | |]; try reflexivity; try contradiction.
  destruct (countdown_without_interrupt (break_minutes * 60)
              (Pomodoro.break_label session) Colors.GREEN _ Hrest)
    as (Hb & Hrest').
  cbn zeta in Hb, Hrest'.
  match goal with
  | |- context [Countdown.countdown_timer (break_minutes * 60) ?l ?c _ ?i] =>
    pose proof (CountdownFacts.loop_never_raises config (break_minutes * 60)
                  l c i (break_minutes * 60) false true) as Hbr;
    fold (Countdown.countdown_timer (break_minutes * 60) l c config i)
      in Hbr;
    destruct (Countdown.result
                (Countdown.countdown_timer (break_minutes * 60) l c config i))
      as [[|] | |]; try reflexivity; try contradiction
  end.
  match goal with
  | |- context [Pomodoro.loop fuel _ _ _ ?s ?i] =>
    specialize (IH s i Hrest');
    destruct (Pomodoro.loop fuel work_minutes break_minutes config s i)
  end.
  exact IH.
Qed.

End PomodoroRuns.

(** X15. The Pomodoro loop has no end of its own: on input without Ctrl+C it
    is still running, however long the input and whatever the keys, and
    it never fails with a division by zero; so when it has returned, an
    interrupt was read. *)
Theorem pomodoro_runs_until_interrupted (work_minutes break_minutes : Z)
    (config : ClockConfig) (ins : list (input Countdown.tick)) :
  let r := Pomodoro.pomodoro_mode work_minutes break_minutes config ins in
  snd r <> Raised
  /\ (Forall (fun i => i <> CtrlC) ins -> snd r = Pending)
  /\ (snd r = Returned tt -> CtrlC ∈ ins).
Proof.
  cbn zeta. unfold Pomodoro.pomodoro_mode.
  split; [apply pomodoro_never_raises |].
  split; [apply pomodoro_pending_without_interrupt |].
  intros Hret.
  assert (Hdec : CtrlC ∈ ins
                 \/ Forall (fun i : input Countdown.tick => i <> CtrlC) ins).
  { clear. induction ins as [| [a |] ins IH].
    - right. constructor.
    - destruct IH as [IH | IH]; [left; right; exact IH |].
      right. constructor; [discriminate | exact IH].
    - left. left. }
  destruct Hdec as [Hin | Hno]; [exact Hin |].
  rewrite (pomodoro_pending_without_interrupt work_minutes break_minutes
             config _ 1 ins Hno) in Hret.
  discriminate.
Qed.

Section PomodoroArgument.
Context `{UD : UnicodeData}.

Lemma decimal_no_comma k n : Forall (fun c => c <> ord ",") (decimal k n).
Proof.
  eapply Forall_impl; [apply decimal_ascii |].
  intros c Hc ->. discriminate Hc.
Qed.

(** X16. [-p W,B] is accepted exactly when the text splits on [','] into two
    parts that [int] reads as positive integers; decimal numerals of
    positive minutes are read back as written when each of them, leading
    zeros counted, is within the interpreter's limit on digits, and the
    argument is refused when one of them is beyond it.  An accepted
    argument starts the Pomodoro loop with these minutes whatever [-s] and
    [-t] say, and the process ends with status 0 once the loop has
    returned. *)
Theorem pomodoro_argument_accepted (s : pystr) :
  (forall w b,
     pomodoro_minutes s = Some (w, b) <->
     exists p0 p1, split (ord ",") s = [p0; p1]
       /\ py_int p0 = Some w /\ py_int p1 = Some b /\ 0 < w /\ 0 < b)
  /\ (forall (zw zb : nat) (w b : N),
        (0 < w)%N -> (0 < b)%N ->
        (within_limit (decimal zw w) -> within_limit (decimal zb b) ->
         pomodoro_minutes (decimal zw w ++ u"," ++ decimal zb b)
         = Some (Z.of_N w, Z.of_N b))
        /\ ((0 < int_max_str_digits)%N ->
            (int_max_str_digits < N.of_nat (length (decimal zw w)))%N
            \/ (int_max_str_digits < N.of_nat (length (decimal zb b)))%N ->
            pomodoro_minutes (decimal zw w ++ u"," ++ decimal zb b) = None))
  /\ (forall args env w b,
        a_white args && a_black args = false ->
        given (a_pomodoro args) = Some s ->
        pomodoro_minutes s = Some (w, b) ->
        let config := {| focus := a_focus args; bold := a_bold args;
                         white := a_white args; black := a_black args;
                         bell_enabled := negb (a_no_bell args) |} in
        let r := Pomodoro.pomodoro_mode w b config (countdown_in env) in
        fst (main args env) = fst r
        /\ snd (main args env)
           = match snd r with
             | Returned _ => Some 0
             | _ => None
             end).
Proof.
  split; [| split].
  - intros w b. unfold pomodoro_minutes.
    destruct (split (ord ",") s) as [| p0 [| p1 [| p2 ps]]] eqn:E.
    + split; [discriminate | intros (? & ? & [=] & _)].
    + split; [discriminate | intros (? & ? & [=] & _)].
    + destruct (py_int p0) as [x |] eqn:E0; cbn [mbind option_bind];
        [destruct (py_int p1) as [y |] eqn:E1; cbn [mbind option_bind] |].
      * destruct ((x <=? 0) || (y <=? 0)) eqn:Ev.
        -- split; [discriminate |].
           intros (? & ? & [= <- <-] & Hx & Hy & Hw & Hb).
           rewrite E0 in Hx. rewrite E1 in Hy.
           injection Hx as ->. injection Hy as ->.
           apply orb_true_iff in Ev as [Ev | Ev]; apply Z.leb_le in Ev; lia.
        -- apply orb_false_iff in Ev as (Ex & Ey).
           apply Z.leb_gt in Ex, Ey. split.
           ++ intros [= <- <-]. exists p0, p1. auto.
           ++ intros (? & ? & [= <- <-] & Hx & Hy & _).
              rewrite E0 in Hx. rewrite E1 in Hy.
              injection Hx as ->. injection Hy as ->. reflexivity.
      * split; [discriminate |].
        intros (? & ? & [= <- <-] & _ & Hy & _).
        rewrite E1 in Hy. discriminate.
      * split; [discriminate |].
        intros (? & ? & [= <- <-] & Hx & _). rewrite E0 in Hx. discriminate.
    + split; [discriminate | intros (? & ? & [=] & _)].
  - intros zw zb w b Hw Hb. unfold pomodoro_minutes.
    change (u"," ++ decimal zb b) with (ord "," :: decimal zb b).
    rewrite (split_app _ _ _ (decimal_no_comma zw w)),
      (split_no_sep _ _ (decimal_no_comma zb b)).
    split.
    + intros Lw Lb.
      rewrite (py_int_decimal _ _ Lw), (py_int_decimal _ _ Lb).
      cbn [mbind option_bind].
      destruct (Z.of_N w <=? 0) eqn:Ew; [apply Z.leb_le in Ew; lia |].
      destruct (Z.of_N b <=? 0) eqn:Eb; [apply Z.leb_le in Eb; lia |].
      reflexivity.
    + intros Hlim [Lw | Lb].
      * rewrite (py_int_decimal_beyond _ _ Hlim Lw). reflexivity.
      * rewrite (py_int_decimal_beyond zb b Hlim Lb).
        destruct (py_int (decimal zw w)); reflexivity.
  - intros args env w b Hwb Hp Hm. cbn zeta. unfold main.
    rewrite Hwb, Hp, Hm.
    pose proof (pomodoro_never_raises w b
                  {| focus := a_focus args; bold := a_bold args;
                     white := a_white args; black := a_black args;
                     bell_enabled := negb (a_no_bell args) |}
                  (S (length (countdown_in env))) 1 (countdown_in env))
      as Hnr.
    fold (Pomodoro.pomodoro_mode w b
            {| focus := a_focus args; bold := a_bold args;
               white := a_white args; black := a_black args;
               bell_enabled := negb (a_no_bell args) |} (countdown_in env))
      in Hnr.
    destruct (Pomodoro.pomodoro_mode w b _ (countdown_in env))
      as [tr [[] | |]]; cbn [fst snd] in *; try contradiction; auto.
Qed.

End PomodoroArgument.

(** ** Colour overrides *)

Section Override.
Variable config : ClockConfig.
Hypothesis Hover : white config || black config = true.

Lemma get_color_override c1 c2 : get_color config c1 = get_color config c2.
Proof.
  unfold get_color. destruct (white config); [reflexivity |].
  destruct (black config); [reflexivity | discriminate Hover].
Qed.

Lemma countdown_loop_override total label c1 c2 ins :
  forall remaining paused first,
  Countdown.loop config total label c1 remaining paused first ins
  = Countdown.loop config total label c2 remaining paused first ins.
Proof.
  induction ins as [| [tk |] ins IH]; intros remaining paused first;
    destruct (Z.lt_ge_cases remaining 0) as [Hr | Hr];
    rewrite ?CountdownFacts.loop_exit, ?CountdownFacts.loop_starved,
      ?CountdownFacts.loop_ctrlc by assumption; try reflexivity.
  destruct (CountdownFacts.loop_tick config total label c1 remaining paused
              first tk ins Hr) as (p1 & Hp1 & ->).
  destruct (CountdownFacts.loop_tick config total label c2 remaining paused
              first tk ins Hr) as (p2 & Hp2 & ->).
  rewrite Hp1 in Hp2. injection Hp2 as <-.
  rewrite IH. f_equal. f_equal.
  unfold Countdown.draw_head, Countdown.draw_bar, Display.print_time,
    Display.print_progress_bar.
  rewrite (get_color_override c1 c2).
  rewrite (get_color_override (if negb (focus config) then c1
                               else Colors.GRAY)
             (if negb (focus config) then c2 else Colors.GRAY)).
  reflexivity.
Qed.

End Override.

(** X17. With [--white] or [--black] the colour a mode asks for is never
    used: the glyph block, the label and a whole countdown come out the
    same for any two requested colours, in white when [white] is set
    (also when [black] is set too) and in black otherwise. *)
Theorem colour_override_wins (config : ClockConfig) (c1 c2 : pystr) :
  white config || black config = true ->
  get_color config c1
  = (if white config then Colors.WHITE else Colors.BLACK)
  /\ (forall cols time_str move_back,
        Display.print_time config cols time_str c1 move_back
        = Display.print_time config cols time_str c2 move_back)
  /\ (forall cols label,
        Display.print_label config cols label c1
        = Display.print_label config cols label c2)
  /\ (forall total label ins,
        Countdown.countdown_timer total label c1 config ins
        = Countdown.countdown_timer total label c2 config ins).
Proof.
  intros Hover. split; [| split; [| split]].
  - unfold get_color. destruct (white config); [reflexivity |].
    destruct (black config); [reflexivity | discriminate Hover].
  - intros. unfold Display.print_time.
    rewrite (get_color_override config Hover c1 c2). reflexivity.
  - intros. unfold Display.print_label.
    rewrite (get_color_override config Hover c1 c2). reflexivity.
  - intros. apply countdown_loop_override. exact Hover.
Qed.

Lemma colour_override_wins_witness :
  white (mkConfig false false true false true)
  || black (mkConfig false false true false true) = true
  /\ get_color (mkConfig false false true false true) Colors.RED
     = Colors.WHITE.
Proof.
  split; [reflexivity |].
  apply (colour_override_wins (mkConfig false false true false true)
           Colors.RED Colors.CYAN eq_refl).
Defined.

(** ** The session bound of the Pomodoro model *)

Section SessionBound.
Variables (work_minutes break_minutes : Z) (config : ClockConfig).
Hypothesis Hwork : 0 <= work_minutes.

Lemma countdown_rest_shorter total label color ins :
  let r := Countdown.countdown_timer total label color config ins in
  (length (Countdown.rest r) <= length ins)%nat
  /\ (Countdown.result r = Returned false -> 0 <= total ->
      (length (Countdown.rest r) < length ins)%nat).
Proof.
  cbn zeta.
  destruct (CountdownRuns.loop_consumes config total label color ins
              total false true) as (tks & Hins & Hlen & _).
  cbn zeta in Hins, Hlen.
  fold (Countdown.countdown_timer total label color config ins)
    in Hins, Hlen.
  assert (L : length ins
              = (length (consumed tks
                           (Countdown.countdown_timer total label color
                              config ins))
                 + length (Countdown.rest
                             (Countdown.countdown_timer total label color
                                config ins)))%nat)
    by (rewrite Hins at 1; apply length_app).
  split; [lia |].
  intros Hres Htot.
  destruct (CountdownRuns.loop_unpaused_count config total label color ins
              total false true ltac:(lia)) as (_ & Heq).
  cbn zeta in Heq.
  fold (Countdown.countdown_timer total label color config ins) in Heq.
  specialize (Heq Hres).
  assert (Hfr : (1 <= length (Countdown.frames
                                (Countdown.countdown_timer total label color
                                   config ins)))%nat).
  { pose proof (List.filter_length_le
                  (fun fr => negb (Countdown.shown_paused fr))
                  (Countdown.frames
                     (Countdown.countdown_timer total label color
                        config ins))) as Hf.
    unfold unpaused in Heq. lia. }
  unfold consumed in L. rewrite length_app, length_map in L. lia.
Qed.

(** Every session reads at least one tick, so a bound above the length
    of the input never cuts the loop short. *)
Lemma pomodoro_bound_enough fuel : forall fuel' session ins,
  (length ins < fuel)%nat -> (length ins < fuel')%nat ->
  Pomodoro.loop fuel work_minutes break_minutes config session ins
  = Pomodoro.loop fuel' work_minutes break_minutes config session ins.
Proof.
  induction fuel as [| fuel IH]; intros fuel' session ins H1 H2; [lia |].
  destruct fuel' as [| fuel']; [lia |].
  cbn [Pomodoro.loop].
  destruct (countdown_rest_shorter (work_minutes * 60)
              (Pomodoro.work_label session) Colors.RED ins) as (_ & Hw).
  cbn zeta in Hw.
  destruct (Countdown.result
              (Countdown.countdown_timer (work_minutes * 60)
                 (Pomodoro.work_label session) Colors.RED config ins))
    as [[|] | |]; try reflexivity.
  specialize (Hw eq_refl ltac:(lia)).
  match goal with
  | |- context [Countdown.countdown_timer (break_minutes * 60) ?l ?c _ ?i] =>
    destruct (countdown_rest_shorter (break_minutes * 60) l c i)
      as (Hb & _); cbn zeta in Hb;
    destruct (Countdown.result
                (Countdown.countdown_timer (break_minutes * 60) l c config i))
      as [[|] | |]; try reflexivity
  end.
  match goal with
  | |- context [Pomodoro.loop fuel _ _ _ _ ?i] =>
    rewrite (IH fuel' (session + 1) i) by lia
  end.
  reflexivity.
Qed.

End SessionBound.

(** ** Keys and widths in the countdown *)

Section CountdownKeys.
Variables (config : ClockConfig) (total_seconds : Z) (label color : pystr).

Lemma countdown_loop_keys ins : forall remaining paused first,
  let r := Countdown.loop config total_seconds label color remaining paused
             first ins in
  exists tks,
    ins = consumed tks r ++ Countdown.rest r
    /\ List.map Countdown.shown_paused (Countdown.frames r)
       = toggles paused (List.map Countdown.key tks)
    /\ Forall2 (fun fr tk =>
                  Countdown.drawn fr
                  = Countdown.draw_head config label color
                      (Countdown.shown fr) (Countdown.shown_paused fr)
                      (Countdown.cols tk)
                    ++ Countdown.draw_bar config color
                         (Countdown.fraction fr) (Countdown.cols tk))
         (Countdown.frames r) tks.
Proof. apply CountdownFacts.loop_keys. Qed.

End CountdownKeys.

(** X19. A key takes effect in the frame of its own tick.  The pause flag a
    frame shows is the flag after the keys read so far, flipped by each
    ['q'] and by no other key, and each frame is laid out for the
    terminal width read in its own tick. *)
Theorem countdown_key_acts_on_its_frame (config : ClockConfig)
    (total_seconds : Z) (label color : pystr)
    (ins : list (input Countdown.tick)) :
  let r := Countdown.countdown_timer total_seconds label color config ins in
  exists tks,
    ins = consumed tks r ++ Countdown.rest r
    /\ List.map Countdown.shown_paused (Countdown.frames r)
       = toggles false (List.map Countdown.key tks)
    /\ Forall2 (fun fr tk =>
                  Countdown.drawn fr
                  = Countdown.draw_head config label color
                      (Countdown.shown fr) (Countdown.shown_paused fr)
                      (Countdown.cols tk)
                    ++ Countdown.draw_bar config color
                         (Countdown.fraction fr) (Countdown.cols tk))
         (Countdown.frames r) tks.
Proof.
  apply (countdown_loop_keys config total_seconds label color ins
           total_seconds false true).
Qed.

(** ** Rendering a concatenation *)

(** From rows already begun, the loop appends to each row what it
    builds from empty rows. *)
Lemma glyph_loop_appends config text : forall l0 l1 l2 l3,
  exists r0 r1 r2 r3,
    foldl (fun lines char =>
             match segments_of config !! char with
             | Some glyph => add_glyph glyph lines
             | None => lines
             end) [[]; []; []; []] text = [r0; r1; r2; r3]
    /\ foldl (fun lines char =>
                match segments_of config !! char with
                | Some glyph => add_glyph glyph lines
                | None => lines
                end) [l0; l1; l2; l3] text
       = [l0 ++ r0; l1 ++ r1; l2 ++ r2; l3 ++ r3].
Proof.
  induction text as [| c text IH]; intros l0 l1 l2 l3.
  - exists [], [], [], []. cbn [foldl]. rewrite !app_nil_r. auto.
  - cbn [foldl]. destruct (known c) eqn:Hk.
    + destruct (segments_known config c Hk)
        as (g & -> & g0 & g1 & g2 & g3 & -> & _).
      rewrite !add_glyph_rows.
      destruct (IH (l0 ++ g0 ++ u" ") (l1 ++ g1 ++ u" ")
                  (l2 ++ g2 ++ u" ") (l3 ++ g3 ++ u" "))
        as (r0 & r1 & r2 & r3 & E0 & ->).
      destruct (IH ([] ++ g0 ++ u" ") ([] ++ g1 ++ u" ")
                  ([] ++ g2 ++ u" ") ([] ++ g3 ++ u" "))
        as (r0' & r1' & r2' & r3' & E0' & ->).
      rewrite E0 in E0'. injection E0' as <- <- <- <-.
      do 4 eexists. split; [reflexivity |].
      cbn [app]. rewrite <- !app_assoc. reflexivity.
    + rewrite (segments_unknown config c Hk). apply IH.
Qed.

(** X20. Rendering is row-wise concatenation: the block of [a ++ b] is the
    block of [a] with the block of [b] appended row by row, so a glyph
    depends on its own character only. *)
Theorem glyph_rows_of_concatenation (config : ClockConfig) (a b : pystr) :
  glyph_rows (segments_of config) (a ++ b)
  = zip_with app (glyph_rows (segments_of config) a)
      (glyph_rows (segments_of config) b).
Proof.
  unfold glyph_rows. rewrite foldl_app.
  change (replicate 4 []) with [[]; []; []; [] : pystr].
  destruct (glyph_loop_appends config a [] [] [] [])
    as (a0 & a1 & a2 & a3 & Ea & _).
  rewrite Ea.
  destruct (glyph_loop_appends config b a0 a1 a2 a3)
    as (b0 & b1 & b2 & b3 & Eb & Eab).
  rewrite Eb, Eab. reflexivity.
Qed.
